(** * The movie lookup engine of [engine/movie.go]

    A shallow embedding of the three public operations of the engine
    ([SearchMovie], [SearchMovieAll], [GetMovieInfoByID]) and of the helpers
    they are built from ([searchMovie], [searchMovieAll],
    [getMovieInfoByID]).

    The engine reads and writes a database and calls into providers.  Both
    are made explicit: an operation is a function from the rows of the
    database to its result, the rows afterwards, and the list of provider
    calls and database accesses it performed, in program order. *)

From Stdlib Require Import String Ascii List Bool Floats.
From stdpp Require Import gmap strings list fin_maps.

Local Open Scope string_scope.
Local Open Scope list_scope.

(** ** Errors and results *)

(** Go's [error] values that occur in the engine: the three sentinels of the
    provider package, and an error that only carries a message (what
    [fmt.Errorf] builds, and what a provider may return besides). *)
Inductive error : Type :=
| ErrInvalidID
| ErrInvalidKeyword
| ErrNotFound
| Errorf (msg : string).

(** A Go return [(T, error)]: a value with a nil error, or an error. *)
Inductive result (A : Type) : Type :=
| Ok (a : A)
| Err (e : error).
Arguments Ok {A} a.
Arguments Err {A} e.

(** What a call does in the end: it returns, or it panics (a method called on
    a nil interface value). *)
Inductive outcome (A : Type) : Type :=
| Returns (r : result A)
| Panics.
Arguments Returns {A} r.
Arguments Panics {A}.

(** ** Package [model] *)

Module MovieSearchResult.
Record t : Type := mk {
  ID : string;
  Number : string;
  Title : string;
  Provider : string;
  Homepage : string
}.
End MovieSearchResult.

Module MovieInfo.
Record t : Type := mk {
  ID : string;
  Number : string;
  Title : string;
  Provider : string;
  Homepage : string
}.
End MovieInfo.

Definition nonempty (s : string) : bool := negb (String.eqb s "").

(** Modelled from the spec: [MovieInfo.ToSearchResult] is declared outside
    [engine/movie.go]; a search result is the projection of an info on its
    provider name, its identifiers and its display fields. *)
Definition ToSearchResult (info : MovieInfo.t) : MovieSearchResult.t :=
  {| MovieSearchResult.ID := MovieInfo.ID info;
     MovieSearchResult.Number := MovieInfo.Number info;
     MovieSearchResult.Title := MovieInfo.Title info;
     MovieSearchResult.Provider := MovieInfo.Provider info;
     MovieSearchResult.Homepage := MovieInfo.Homepage info |}.

(** ** Package [provider] (imported as [javtube]) *)

Module javtube.
(** A provider: its name, its priority (as the [float64] the engine
    converts it to), its ID normalisation, its fetch-by-ID capability, and
    its keyword search when it implements [MovieSearcher] (the type
    assertion of [searchMovie] succeeds exactly when [Searcher] is [Some]).
    A method answers with a value or with an error, never with both, and
    the same call gets the same answer within one operation. *)
Record MovieProvider : Type := mk {
  Name : string;
  Priority : float;
  NormalizeID : string -> string;
  GetMovieInfoByID : string -> result MovieInfo.t;
  Searcher : option (string -> result (list MovieSearchResult.t))
}.
End javtube.

(** ** The database *)

(** SQL's [UPPER], on the ASCII letters. *)
Definition upper_ascii (c : ascii) : ascii :=
  let n := nat_of_ascii c in
  if Nat.leb 97 n && Nat.leb n 122 then ascii_of_nat (n - 32) else c.

Fixpoint UPPER (s : string) : string :=
  match s with
  | EmptyString => EmptyString
  | String c rest => String (upper_ascii c) (UPPER rest)
  end.

(** The three [Where] conditions the engine builds. *)
Inductive query : Type :=
| ByProviderAndKeyword (provider keyword : string)
| ByKeyword (keyword : string)
| ByProviderAndID (id provider : string).

Definition keyword_matches (keyword : string) (row : MovieInfo.t) : bool :=
  String.eqb (UPPER (MovieInfo.Number row)) (UPPER keyword)
  || String.eqb (UPPER (MovieInfo.ID row)) (UPPER keyword).

Definition matches (q : query) (row : MovieInfo.t) : bool :=
  match q with
  | ByProviderAndKeyword provider keyword =>
      String.eqb (MovieInfo.Provider row) provider && keyword_matches keyword row
  | ByKeyword keyword => keyword_matches keyword row
  | ByProviderAndID id provider =>
      String.eqb (MovieInfo.ID row) id && String.eqb (MovieInfo.Provider row) provider
  end.

(** The rows of the movie table, in storage order. *)
Definition DB : Type := list MovieInfo.t.

Definition same_key (a b : MovieInfo.t) : bool :=
  String.eqb (MovieInfo.ID a) (MovieInfo.ID b)
  && String.eqb (MovieInfo.Provider a) (MovieInfo.Provider b).

(** Modelled from the spec: [Create] under [clause.OnConflict{UpdateAll}]
    belongs to the database library; it inserts the row, or overwrites every
    field of the row that has the same (provider, id) key. *)
Fixpoint upsert (info : MovieInfo.t) (rows : DB) : DB :=
  match rows with
  | [] => [info]
  | row :: rest =>
      if same_key row info then info :: rest else row :: upsert info rest
  end.

(** ** Effects *)

(** What an operation does to the outside: the provider methods it calls
    (the provider is named by its [Name]) and its database statements. *)
Inductive event : Type :=
| CallName (provider : string)
| CallPriority (provider : string)
| CallNormalizeID (provider raw : string)
| CallSearchMovie (provider keyword : string)
| CallGetMovieInfoByID (provider id : string)
| DBFirst (q : query)
| DBFind (q : query)
| DBCreate (info : MovieInfo.t).

(** The two capabilities of a provider: keyword search and fetch by ID. *)
Definition capability_call (ev : event) : bool :=
  match ev with
  | CallSearchMovie _ _ | CallGetMovieInfoByID _ _ => true
  | _ => false
  end.

Definition M (A : Type) : Type := DB -> A * DB * list event.

Definition ret {A} (a : A) : M A := fun db => (a, db, []).

Definition bind {A B} (m : M A) (k : A -> M B) : M B :=
  fun db =>
    let '(a, db1, t1) := m db in
    let '(b, db2, t2) := k a db1 in
    (b, db2, t1 ++ t2).

Notation "x <- m ;; k" := (bind m (fun x => k))
  (at level 100, m at next level, right associativity).
Notation "m ;;; k" := (bind m (fun _ => k))
  (at level 100, right associativity).

Definition emit (ev : event) : M unit := fun db => (tt, db, [ev]).

(** [First]: the first matching row, [None] when there is none ([First]
    orders by primary key; the rows are taken to be stored in that order).
    No row and a failed query both leave [result.Error] non-nil and the
    engine treats them alike, so [None] stands for both. *)
Definition dbFirst (q : query) : M (option MovieInfo.t) :=
  fun db => (List.find (matches q) db, db, [DBFirst q]).

(** [Find]: every matching row, in storage order. *)
Definition dbFind (q : query) : M (list MovieInfo.t) :=
  fun db => (List.filter (matches q) db, db, [DBFind q]).

(** [Create] with the conflict clause; the engine ignores its error. *)
Definition dbCreate (info : MovieInfo.t) : M unit :=
  fun db => (tt, upsert info db, [DBCreate info]).

(** Accessors of a run. *)
Definition value {A} (r : A * DB * list event) : A := fst (fst r).
Definition store {A} (r : A * DB * list event) : DB := snd (fst r).
Definition trace {A} (r : A * DB * list event) : list event := snd r.

(** ** Package [priority] *)

Module priority.
(** Modelled from the spec: [priority.Slice] is declared outside
    [engine/movie.go].  It accumulates (weight, item) pairs with [Append];
    [Sort] orders them by descending weight and keeps the append order
    among equal weights; [Underlying] drops the weights.  The weight type
    is fixed to [float64], the one the engine instantiates it with. *)
Definition Slice (Item : Type) : Type := list (float * Item).

Definition Append {Item} (ps : Slice Item) (w : float) (x : Item) : Slice Item :=
  ps ++ [(w, x)].

Fixpoint insert {Item} (a : float * Item) (ps : Slice Item) : Slice Item :=
  match ps with
  | [] => [a]
  | b :: rest =>
      if PrimFloat.ltb (fst a) (fst b) then b :: insert a rest else a :: b :: rest
  end.

Definition Sort {Item} (ps : Slice Item) : Slice Item :=
  List.fold_right insert [] ps.

Definition Underlying {Item} (ps : Slice Item) : list Item := List.map snd ps.
End priority.

(** ** Package [engine] *)

Module engine.

(** The engine holds the provider registry, a Go map from names to
    providers; its database handle is the [DB] the operations thread. *)
Record Engine : Type := { movieProviders : gmap string javtube.MovieProvider }.

(** Provider methods, as calls that leave an event. *)
Definition provider_Name (p : javtube.MovieProvider) : M string :=
  emit (CallName (javtube.Name p)) ;;; ret (javtube.Name p).

Definition provider_Priority (p : javtube.MovieProvider) : M float :=
  emit (CallPriority (javtube.Name p)) ;;; ret (javtube.Priority p).

Definition provider_NormalizeID (p : javtube.MovieProvider) (raw : string) : M string :=
  emit (CallNormalizeID (javtube.Name p) raw) ;;; ret (javtube.NormalizeID p raw).

Definition provider_GetMovieInfoByID (p : javtube.MovieProvider) (id : string)
  : M (result MovieInfo.t) :=
  emit (CallGetMovieInfoByID (javtube.Name p) id) ;;; ret (javtube.GetMovieInfoByID p id).

Definition searcher_SearchMovie (p : javtube.MovieProvider)
    (search : string -> result (list MovieSearchResult.t)) (keyword : string)
  : M (result (list MovieSearchResult.t)) :=
  emit (CallSearchMovie (javtube.Name p) keyword) ;;; ret (search keyword).

(** One message of the response channel of [searchMovieAll]. *)
Record response : Type := {
  Results : list MovieSearchResult.t;
  Error : option error
}.

Definition respond (r : result (list MovieSearchResult.t)) : response :=
  match r with
  | Ok results => {| Results := results; Error := None |}
  | Err err => {| Results := []; Error := Some err |}
  end.

(** The receiving loop of [searchMovieAll], over the messages in the order
    they arrive. *)
Definition receive (resps : list response) : list MovieSearchResult.t :=
  List.fold_left
    (fun results resp =>
       match Error resp with
       | Some _ => results
       | None => results ++ Results resp
       end)
    resps [].

Section Operations.

(** Functions of package [number] and the validity rules of package
    [model]; their code is outside [engine/movie.go]. *)
Variable Trim : string -> string.
Variable Similarity : string -> string -> float.

(** Modelled from the spec: [MovieInfo.Valid] holds only when ID and number
    are non-empty and the structural checks ([info_checks]) pass. *)
Variable info_checks : MovieInfo.t -> bool.
Definition InfoValid (info : MovieInfo.t) : bool :=
  nonempty (MovieInfo.ID info) && nonempty (MovieInfo.Number info) && info_checks info.

(** Modelled from the spec: [MovieSearchResult.Valid] holds only when the
    identifying fields are non-empty and well-formed ([result_checks]). *)
Variable result_checks : MovieSearchResult.t -> bool.
Definition ResultValid (r : MovieSearchResult.t) : bool :=
  nonempty (MovieSearchResult.ID r) && nonempty (MovieSearchResult.Number r)
  && result_checks r.

(** The delayed auto-save of [getMovieInfoByID]. *)
Definition autosave (r : result MovieInfo.t) : M unit :=
  match r with
  | Ok info => if InfoValid info then dbCreate info else ret tt
  | Err _ => ret tt
  end.

Definition getMovieInfoByID (id : string) (provider : javtube.MovieProvider)
    (lazy : bool) : M (result MovieInfo.t) :=
  id <- provider_NormalizeID provider id ;;
  if String.eqb id "" then ret (Err ErrInvalidID)
  else
    cached <- (if lazy then
                 name <- provider_Name provider ;;
                 dbFirst (ByProviderAndID id name)
               else ret None) ;;
    match cached with
    | Some info =>
        if InfoValid info then ret (Ok info)
        else r <- provider_GetMovieInfoByID provider id ;; autosave r ;;; ret r
    | None => r <- provider_GetMovieInfoByID provider id ;; autosave r ;;; ret r
    end.

Definition searchMovie (keyword : string) (provider : javtube.MovieProvider)
    (lazy : bool) : M (result (list MovieSearchResult.t)) :=
  match javtube.Searcher provider with
  | Some search =>
      cached <- (if lazy then
                   name <- provider_Name provider ;;
                   dbFirst (ByProviderAndKeyword name keyword)
                 else ret None) ;;
      match cached with
      | Some info =>
          if InfoValid info then ret (Ok [ToSearchResult info])
          else searcher_SearchMovie provider search keyword
      | None => searcher_SearchMovie provider search keyword
      end
  | None =>
      r <- getMovieInfoByID keyword provider true ;;
      match r with
      | Err err => ret (Err err)
      | Ok info => ret (Ok [ToSearchResult info])
      end
  end.

Definition provider_not_found (name : string) : error :=
  Errorf (String.append "provider not found: " name).

Definition SearchMovie (e : Engine) (keyword name : string) (lazy : bool)
  : M (result (list MovieSearchResult.t)) :=
  let keyword := Trim keyword in
  if String.eqb keyword "" then ret (Err ErrInvalidKeyword)
  else
    match movieProviders e !! name with
    | None => ret (Err (provider_not_found name))
    | Some provider => searchMovie keyword provider lazy
    end.

(** The searching tasks of [searchMovieAll], one per provider.  The
    goroutines run concurrently; [order] is the order in which they take
    effect and report, one of the permutations of the registry (each task
    is taken as one step; the properties below hold for every order). *)
Fixpoint tasks (keyword : string) (order : list javtube.MovieProvider)
  : M (list response) :=
  match order with
  | [] => ret []
  | provider :: rest =>
      r <- searchMovie keyword provider false ;;
      resps <- tasks keyword rest ;;
      ret (respond r :: resps)
  end.

Definition searchMovieAll (order : list javtube.MovieProvider) (keyword : string)
  : M (list MovieSearchResult.t) :=
  resps <- tasks keyword order ;;
  ret (receive resps).

(** The weighting loop of the post-processing; [None] is the panic of
    calling [Priority] on the nil interface that the registry yields for
    a name it does not hold. *)
Fixpoint weigh (e : Engine) (keyword : string) (results : list MovieSearchResult.t)
    (ps : priority.Slice MovieSearchResult.t)
  : M (option (priority.Slice MovieSearchResult.t)) :=
  match results with
  | [] => ret (Some ps)
  | result :: rest =>
      if negb (ResultValid result) then weigh e keyword rest ps
      else
        match movieProviders e !! MovieSearchResult.Provider result with
        | None => ret None
        | Some provider =>
            prio <- provider_Priority provider ;;
            weigh e keyword rest
              (priority.Append ps
                 (PrimFloat.mul (Similarity keyword (MovieSearchResult.Number result)) prio)
                 result)
        end
  end.

(** The deferred function of [SearchMovieAll]. *)
Definition postprocess (e : Engine) (keyword : string)
    (r : result (list MovieSearchResult.t)) : M (outcome (list MovieSearchResult.t)) :=
  match r with
  | Err err => ret (Returns (Err err))
  | Ok results =>
      if Nat.eqb (length results) 0 then ret (Returns (Err ErrNotFound))
      else
        ps <- weigh e keyword results [] ;;
        match ps with
        | None => ret Panics
        | Some ps => ret (Returns (Ok (priority.Underlying (priority.Sort ps))))
        end
  end.

(** The body of [SearchMovieAll] below the [defer]: the rows of the cache
    when [lazy] finds some, the answers of the providers otherwise. *)
Definition gather (order : list javtube.MovieProvider) (keyword : string)
    (lazy : bool) : M (result (list MovieSearchResult.t)) :=
  multiInfo <- (if lazy then dbFind (ByKeyword keyword) else ret []) ;;
  if Nat.ltb 0 (length multiInfo)
  then ret (Ok (List.map ToSearchResult multiInfo))
  else results <- searchMovieAll order keyword ;; ret (Ok results).

Definition SearchMovieAll (e : Engine) (order : list javtube.MovieProvider)
    (keyword : string) (lazy : bool) : M (outcome (list MovieSearchResult.t)) :=
  let keyword := Trim keyword in
  if String.eqb keyword "" then ret (Returns (Err ErrInvalidKeyword))
  else
    r <- gather order keyword lazy ;;
    postprocess e keyword r.

Definition GetMovieInfoByID (e : Engine) (id name : string) (lazy : bool)
  : M (result MovieInfo.t) :=
  match movieProviders e !! name with
  | None => ret (Err (provider_not_found name))
  | Some provider => getMovieInfoByID id provider lazy
  end.

(** *** Reference functions

    Pure descriptions of what the loops above compute; the theorems
    relate the operations to them. *)

(** The record the store holds for the key (provider, id). *)
Definition record_for (db : DB) (provider id : string) : option MovieInfo.t :=
  List.find (matches (ByProviderAndID id provider)) db.

(** The key of the movie table is (provider, id): no two rows share it. *)
Definition unique_keys (db : DB) : Prop :=
  List.NoDup (List.map (fun row => (MovieInfo.ID row, MovieInfo.Provider row)) db).

(** The valid record the cache-first step of [getMovieInfoByID] finds. *)
Definition cache_hit (db : DB) (provider : javtube.MovieProvider) (id : string)
    (lazy : bool) : option MovieInfo.t :=
  if lazy then
    match record_for db (javtube.Name provider) id with
    | Some info => if InfoValid info then Some info else None
    | None => None
    end
  else None.

(** The events of [getMovieInfoByID] up to and including its cache query. *)
Definition lookup_events (provider : javtube.MovieProvider) (raw : string)
    (lazy : bool) : list event :=
  CallNormalizeID (javtube.Name provider) raw
  :: (if lazy
      then [CallName (javtube.Name provider);
            DBFirst (ByProviderAndID (javtube.NormalizeID provider raw)
                       (javtube.Name provider))]
      else []).

(** The concatenation of the result lists of the providers whose search
    succeeds, each run on the store its predecessors left. *)
Fixpoint successes (keyword : string) (order : list javtube.MovieProvider) (db : DB)
  : list MovieSearchResult.t :=
  match order with
  | [] => []
  | provider :: rest =>
      let run := searchMovie keyword provider false db in
      match value run with
      | Ok results => results ++ successes keyword rest (store run)
      | Err _ => successes keyword rest (store run)
      end
  end.

(** The weight of one result, when its provider is registered. *)
Definition weight (e : Engine) (keyword : string) (r : MovieSearchResult.t)
  : option float :=
  match movieProviders e !! MovieSearchResult.Provider r with
  | None => None
  | Some provider =>
      Some (PrimFloat.mul (Similarity keyword (MovieSearchResult.Number r))
              (javtube.Priority provider))
  end.

(** The weighted valid results, or [None] at the first valid result of an
    unregistered provider. *)
Fixpoint weighted (e : Engine) (keyword : string) (results : list MovieSearchResult.t)
  : option (priority.Slice MovieSearchResult.t) :=
  match results with
  | [] => Some []
  | r :: rest =>
      if negb (ResultValid r) then weighted e keyword rest
      else
        match weight e keyword r with
        | None => None
        | Some w =>
            match weighted e keyword rest with
            | None => None
            | Some ps => Some ((w, r) :: ps)
            end
        end
  end.

(** The [Priority] calls of the weighting loop, up to where it stops. *)
Fixpoint priority_calls (e : Engine) (results : list MovieSearchResult.t)
  : list event :=
  match results with
  | [] => []
  | r :: rest =>
      if negb (ResultValid r) then priority_calls e rest
      else
        match movieProviders e !! MovieSearchResult.Provider r with
        | None => []
        | Some provider => CallPriority (javtube.Name provider) :: priority_calls e rest
        end
  end.

(** The priority the weighting loop reads for a provider name; the default
    stands for the names the loop never gets past. *)
Definition priority_of (e : Engine) (name : string) : float :=
  match movieProviders e !! name with
  | Some provider => javtube.Priority provider
  | None => 0%float
  end.

Definition weigh_one (e : Engine) (keyword : string) (r : MovieSearchResult.t)
  : float * MovieSearchResult.t :=
  (PrimFloat.mul (Similarity keyword (MovieSearchResult.Number r))
     (priority_of e (MovieSearchResult.Provider r)), r).

(** The valid results, ordered by descending similarity times priority. *)
Definition ranked (e : Engine) (keyword : string) (results : list MovieSearchResult.t)
  : list MovieSearchResult.t :=
  priority.Underlying
    (priority.Sort (List.map (weigh_one e keyword) (List.filter ResultValid results))).

(** Every valid result names a registered provider. *)
Definition registered (e : Engine) (results : list MovieSearchResult.t) : Prop :=
  forall r, In r results -> ResultValid r = true ->
            is_Some (movieProviders e !! MovieSearchResult.Provider r).

(** What [SearchMovieAll] makes of a gathered list. *)
Definition settle (e : Engine) (keyword : string) (results : list MovieSearchResult.t)
  : outcome (list MovieSearchResult.t) :=
  match results with
  | [] => Returns (Err ErrNotFound)
  | _ :: _ =>
      match weighted e keyword results with
      | None => Panics
      | Some ps => Returns (Ok (priority.Underlying (priority.Sort ps)))
      end
  end.

(** A run saves valid infos only: every [Create] of its trace carries a
    valid info, and every row of the store it leaves was there before or is
    valid. *)
Definition saves_valid_only {A} (db : DB) (run : A * DB * list event) : Prop :=
  (forall info, In (DBCreate info) (trace run) -> InfoValid info = true)
  /\ (forall row, In row (store run) -> In row db \/ InfoValid row = true).

Definition careful {A} (m : M A) : Prop := forall db, saves_valid_only db (m db).

End Operations.

End engine.
Import engine.

(** ** Sample providers, engines and stores *)

Module Sample.

(** A [Trim] that drops the spaces around the keyword. *)
Fixpoint drop_spaces (s : string) : string :=
  match s with
  | String " " rest => drop_spaces rest
  | _ => s
  end.

Fixpoint reverse (s acc : string) : string :=
  match s with
  | EmptyString => acc
  | String c rest => reverse rest (String c acc)
  end.

Definition trim_spaces (s : string) : string :=
  reverse (drop_spaces (reverse (drop_spaces s) "")) "".

(** A [Similarity]: 1 on equal numbers up to case, one half otherwise. *)
Definition similarity (keyword number : string) : float :=
  if String.eqb (UPPER keyword) (UPPER number) then 1%float else 0.5%float.

Definition no_checks {A} (_ : A) : bool := true.

Definition info (provider id number : string) : MovieInfo.t :=
  {| MovieInfo.ID := id; MovieInfo.Number := number; MovieInfo.Title := "title";
     MovieInfo.Provider := provider; MovieInfo.Homepage := "https://example.org" |}.

(** A provider with keyword search: one hit, numbered as the keyword. *)
Definition searching (name : string) (prio : float) : javtube.MovieProvider :=
  {| javtube.Name := name;
     javtube.Priority := prio;
     javtube.NormalizeID := fun raw => raw;
     javtube.GetMovieInfoByID := fun id => Ok (info name id "ABC-123");
     javtube.Searcher := Some (fun keyword => Ok [ToSearchResult (info name "1" keyword)]) |}.

(** A provider whose search fails. *)
Definition failing (name : string) : javtube.MovieProvider :=
  {| javtube.Name := name;
     javtube.Priority := 1%float;
     javtube.NormalizeID := fun raw => raw;
     javtube.GetMovieInfoByID := fun _ => Err (Errorf "connection reset");
     javtube.Searcher := Some (fun _ => Err (Errorf "connection reset")) |}.

(** A provider whose search yields one result without a number. *)
Definition numberless (name : string) : javtube.MovieProvider :=
  {| javtube.Name := name;
     javtube.Priority := 1%float;
     javtube.NormalizeID := fun raw => raw;
     javtube.GetMovieInfoByID := fun id => Ok (info name id "");
     javtube.Searcher := Some (fun _ => Ok [ToSearchResult (info name "1" "")]) |}.

(** A provider without keyword search; [fetch] is its fetch-by-ID. *)
Definition fetching (name : string) (fetch : string -> result MovieInfo.t)
  : javtube.MovieProvider :=
  {| javtube.Name := name;
     javtube.Priority := 1%float;
     javtube.NormalizeID := fun raw => raw;
     javtube.GetMovieInfoByID := fetch;
     javtube.Searcher := None |}.

Definition engine (providers : list javtube.MovieProvider) : Engine :=
  {| movieProviders := list_to_map (List.map (fun p => (javtube.Name p, p)) providers) |}.

(** The providers "A" (priority 1) and "B" (priority 2) search; "F" fails;
    "N" finds a result without a number; "G", "X" and "E" only fetch: "G" a
    valid info, "X" an info without a number, "E" an error. *)
Definition A : javtube.MovieProvider := searching "A" 1%float.
Definition B : javtube.MovieProvider := searching "B" 2%float.
Definition F : javtube.MovieProvider := failing "F".
Definition N : javtube.MovieProvider := numberless "N".
Definition G : javtube.MovieProvider := fetching "G" (fun id => Ok (info "G" id "XYZ-001")).
Definition X : javtube.MovieProvider := fetching "X" (fun id => Ok (info "X" id "")).
Definition E : javtube.MovieProvider :=
  fetching "E" (fun _ => Err (Errorf "connection reset")).

(** "P" only fetches, and recognises the IDs that start with "xyz". *)
Definition P : javtube.MovieProvider :=
  {| javtube.Name := "P";
     javtube.Priority := 1%float;
     javtube.NormalizeID := fun raw => if String.prefix "xyz" raw then raw else "";
     javtube.GetMovieInfoByID := fun id => Ok (info "P" id "XYZ-001");
     javtube.Searcher := None |}.

(** A record of "G" that fails validation: it has no number. *)
Definition stale : MovieInfo.t := info "G" "xyz1" "".

(** Two rows numbered alike, of "A" and of "B", in this storage order. *)
Definition shelf : DB := [info "A" "1" "ABC-123"; info "B" "7" "ABC-123"].

End Sample.

(** * Properties *)

Section Properties.

Variable Trim : string -> string.
Variable Similarity : string -> string -> float.
Variable info_checks : MovieInfo.t -> bool.
Variable result_checks : MovieSearchResult.t -> bool.

Local Abbreviation InfoValid := (InfoValid info_checks).
Local Abbreviation ResultValid := (ResultValid result_checks).
Local Abbreviation getMovieInfoByID := (getMovieInfoByID info_checks).
Local Abbreviation searchMovie := (searchMovie info_checks).
Local Abbreviation searchMovieAll := (searchMovieAll info_checks).
Local Abbreviation gather := (gather info_checks).
Local Abbreviation SearchMovie := (SearchMovie Trim info_checks).
Local Abbreviation GetMovieInfoByID := (GetMovieInfoByID info_checks).
Local Abbreviation SearchMovieAll :=
  (SearchMovieAll Trim Similarity info_checks result_checks).
Local Abbreviation postprocess := (postprocess Similarity result_checks).
Local Abbreviation weigh := (weigh Similarity result_checks).
Local Abbreviation cache_hit := (cache_hit info_checks).
Local Abbreviation successes := (successes info_checks).
Local Abbreviation weighted := (weighted Similarity result_checks).
Local Abbreviation priority_calls := (priority_calls result_checks).
Local Abbreviation settle := (settle Similarity result_checks).
Local Abbreviation ranked := (ranked Similarity result_checks).
Local Abbreviation registered := (registered result_checks).
Local Abbreviation weigh_one := (weigh_one Similarity).
Local Abbreviation careful := (careful info_checks).

(** ** Strings *)

Lemma eqb_empty_false (s : string) : s <> "" -> String.eqb s "" = false.
Proof. intros H. now apply String.eqb_neq. Qed.

Lemma nonempty_empty : nonempty "" = false.
Proof. reflexivity. Qed.

(** ** The store *)

Lemma same_key_spec (a b : MovieInfo.t) :
  same_key a b = true
  <-> (MovieInfo.ID a, MovieInfo.Provider a) = (MovieInfo.ID b, MovieInfo.Provider b).
Proof.
  unfold same_key. rewrite andb_true_iff, !String.eqb_eq.
  split; [intros [-> ->]; reflexivity|intros H; now injection H].
Qed.

(** Under the key constraint, the record for a key is the row that has it. *)
Lemma record_for_held (db : DB) (info : MovieInfo.t) :
  unique_keys db -> In info db ->
  record_for db (MovieInfo.Provider info) (MovieInfo.ID info) = Some info.
Proof.
  unfold unique_keys, record_for.
  induction db as [|row rest IH]; intros Hu Hin; [destruct Hin|].
  cbn [List.map] in Hu. apply List.NoDup_cons_iff in Hu. destruct Hu as [Hfresh Hu].
  cbn [List.find matches].
  destruct (String.eqb (MovieInfo.ID row) (MovieInfo.ID info)
            && String.eqb (MovieInfo.Provider row) (MovieInfo.Provider info)) eqn:Hk.
  - destruct Hin as [->|Hin]; [reflexivity|]. exfalso. apply Hfresh.
    apply (proj1 (same_key_spec row info)) in Hk. rewrite Hk.
    now apply (List.in_map (fun r => (MovieInfo.ID r, MovieInfo.Provider r))).
  - destruct Hin as [->|Hin]; [|now apply IH].
    now rewrite !String.eqb_refl in Hk.
Qed.

Lemma upsert_keys (info : MovieInfo.t) (db : DB) (k : string * string) :
  In k (List.map (fun row => (MovieInfo.ID row, MovieInfo.Provider row)) (upsert info db)) ->
  k = (MovieInfo.ID info, MovieInfo.Provider info)
  \/ In k (List.map (fun row => (MovieInfo.ID row, MovieInfo.Provider row)) db).
Proof.
  induction db as [|row rest IH]; cbn [upsert List.map].
  - intros [<-|[]]. now left.
  - destruct (same_key row info) eqn:Hk; cbn [List.map].
    + intros [<-|H]; [now left|right; now right].
    + intros [<-|H]; [right; now left|].
      destruct (IH H) as [->|H']; [now left|right; now right].
Qed.

(** [upsert] keeps the key constraint. *)
Lemma upsert_unique (info : MovieInfo.t) (db : DB) :
  unique_keys db -> unique_keys (upsert info db).
Proof.
  unfold unique_keys. induction db as [|row rest IH]; intros Hu.
  - repeat constructor. intros [].
  - cbn [List.map] in Hu. apply List.NoDup_cons_iff in Hu. destruct Hu as [Hfresh Hu].
    cbn [upsert]. destruct (same_key row info) eqn:Hk; cbn [List.map].
    + apply (proj1 (same_key_spec row info)) in Hk. rewrite <- Hk.
      now apply List.NoDup_cons_iff.
    + apply List.NoDup_cons_iff. split; [|now apply IH].
      intros Hin. destruct (upsert_keys _ _ _ Hin) as [Heq|Hin']; [|now apply Hfresh].
      apply (proj2 (same_key_spec row info)) in Heq. congruence.
Qed.

(** ** [getMovieInfoByID], case by case *)

Ltac step :=
  unfold engine.getMovieInfoByID, provider_NormalizeID, provider_Name,
    provider_GetMovieInfoByID, searcher_SearchMovie, provider_Priority,
    autosave, dbFirst, dbFind, dbCreate, bind, emit, ret; simpl.

Lemma getMovieInfoByID_rejected id provider lazy db :
  javtube.NormalizeID provider id = "" ->
  getMovieInfoByID id provider lazy db
  = (Err ErrInvalidID, db, [CallNormalizeID (javtube.Name provider) id]).
Proof. intros H. step. rewrite H. reflexivity. Qed.

Lemma getMovieInfoByID_cached id provider lazy db info :
  javtube.NormalizeID provider id <> "" ->
  cache_hit db provider (javtube.NormalizeID provider id) lazy = Some info ->
  getMovieInfoByID id provider lazy db
  = (Ok info, db, lookup_events provider id lazy).
Proof.
  intros Hid Hhit. unfold engine.cache_hit, record_for in Hhit.
  unfold lookup_events. step. rewrite (eqb_empty_false _ Hid).
  destruct lazy; [|discriminate]. simpl.
  destruct (find _ db) as [row|]; [|discriminate].
  destruct (engine.InfoValid info_checks row) eqn:Hv; [|discriminate].
  injection Hhit as <-. reflexivity.
Qed.

Lemma getMovieInfoByID_fetched id provider lazy db :
  javtube.NormalizeID provider id <> "" ->
  cache_hit db provider (javtube.NormalizeID provider id) lazy = None ->
  getMovieInfoByID id provider lazy db
  = (javtube.GetMovieInfoByID provider (javtube.NormalizeID provider id),
     match javtube.GetMovieInfoByID provider (javtube.NormalizeID provider id) with
     | Ok info => if InfoValid info then upsert info db else db
     | Err _ => db
     end,
     lookup_events provider id lazy
     ++ CallGetMovieInfoByID (javtube.Name provider) (javtube.NormalizeID provider id)
     :: match javtube.GetMovieInfoByID provider (javtube.NormalizeID provider id) with
        | Ok info => if InfoValid info then [DBCreate info] else []
        | Err _ => []
        end).
Proof.
  intros Hid Hhit. unfold engine.cache_hit, record_for in Hhit.
  unfold lookup_events. step. rewrite (eqb_empty_false _ Hid).
  destruct lazy; simpl.
  - destruct (find _ db) as [row|]; simpl.
    + destruct (engine.InfoValid info_checks row) eqn:Hv; [discriminate|].
      destruct (javtube.GetMovieInfoByID provider _) as [info|err]; simpl;
        [destruct (engine.InfoValid info_checks info)|]; reflexivity.
    + destruct (javtube.GetMovieInfoByID provider _) as [info|err]; simpl;
        [destruct (engine.InfoValid info_checks info)|]; reflexivity.
  - destruct (javtube.GetMovieInfoByID provider _) as [info|err]; simpl;
      [destruct (engine.InfoValid info_checks info)|]; reflexivity.
Qed.

(** ** The guards of the public operations *)

(** C9: a keyword that trims to the empty string makes [SearchMovie] and
    [SearchMovieAll] fail with [ErrInvalidKeyword]; the store is left as it
    was and no provider method or database statement is executed. *)
Theorem invalid_keyword_fails_first (e : Engine) (order : list javtube.MovieProvider)
    (keyword name : string) (lazy : bool) (db : DB) :
  Trim keyword = "" ->
  SearchMovie e keyword name lazy db = (Err ErrInvalidKeyword, db, [])
  /\ SearchMovieAll e order keyword lazy db = (Returns (Err ErrInvalidKeyword), db, []).
Proof.
  intros Hk. unfold engine.SearchMovie, engine.SearchMovieAll.
  rewrite Hk. split; reflexivity.
Qed.

(** C10: for a name the registry does not hold, [SearchMovie] (on a keyword
    that does not trim to the empty string) and [GetMovieInfoByID] fail with
    the error "provider not found: <name>"; the trace is empty, so
    [GetMovieInfoByID] fails before [NormalizeID] is called. *)
Theorem unknown_provider_fails (e : Engine) (keyword id name : string)
    (lazy : bool) (db : DB) :
  movieProviders e !! name = None ->
  (Trim keyword <> "" ->
   SearchMovie e keyword name lazy db = (Err (provider_not_found name), db, []))
  /\ GetMovieInfoByID e id name lazy db = (Err (provider_not_found name), db, []).
Proof.
  intros Hnone. split.
  - intros Hk. unfold engine.SearchMovie.
    rewrite (eqb_empty_false _ Hk), Hnone. reflexivity.
  - unfold engine.GetMovieInfoByID. rewrite Hnone. reflexivity.
Qed.

(** ** Fetch by ID *)

(** C5: with [lazy] set, a registered provider and an ID that normalises to
    a non-empty string, when the store's record for (provider, normalised
    ID) is valid ([record_for_held]: the row that has this key),
    [GetMovieInfoByID] returns that record; the store is
    unchanged and the trace holds the normalisation, the [Name] call and the
    cache query only: no fetch by the provider, no [Create]. *)
Theorem lazy_fetch_returns_cached_record (e : Engine) (id name : string) (db : DB)
    (provider : javtube.MovieProvider) (info : MovieInfo.t) :
  movieProviders e !! name = Some provider ->
  javtube.NormalizeID provider id <> "" ->
  record_for db (javtube.Name provider) (javtube.NormalizeID provider id) = Some info ->
  InfoValid info = true ->
  GetMovieInfoByID e id name true db
  = (Ok info, db,
     [CallNormalizeID (javtube.Name provider) id;
      CallName (javtube.Name provider);
      DBFirst (ByProviderAndID (javtube.NormalizeID provider id) (javtube.Name provider))]).
Proof.
  intros Hp Hid Hrec Hvalid. unfold engine.GetMovieInfoByID. rewrite Hp.
  rewrite (getMovieInfoByID_cached _ _ true _ info Hid); [reflexivity|].
  unfold engine.cache_hit. rewrite Hrec, Hvalid. reflexivity.
Qed.

(** C7: when the fetch of a registered provider is reached (the ID
    normalises to a non-empty string and the cache-first step yields
    nothing) and fails, [GetMovieInfoByID] returns the provider's error as
    it is; the store is unchanged, the provider is called once and there is
    no [Create]. *)
Theorem fetch_error_is_returned_unchanged (e : Engine) (id name : string) (lazy : bool)
    (db : DB) (provider : javtube.MovieProvider) (err : error) :
  movieProviders e !! name = Some provider ->
  javtube.NormalizeID provider id <> "" ->
  cache_hit db provider (javtube.NormalizeID provider id) lazy = None ->
  javtube.GetMovieInfoByID provider (javtube.NormalizeID provider id) = Err err ->
  GetMovieInfoByID e id name lazy db
  = (Err err, db,
     lookup_events provider id lazy
     ++ [CallGetMovieInfoByID (javtube.Name provider) (javtube.NormalizeID provider id)]).
Proof.
  intros Hp Hid Hmiss Hfetch. unfold engine.GetMovieInfoByID. rewrite Hp.
  rewrite (getMovieInfoByID_fetched _ _ _ _ Hid Hmiss), Hfetch. reflexivity.
Qed.

(** ** Search with one provider *)

(** C4: for a registered provider without keyword search, [SearchMovie] is
    [getMovieInfoByID] run with [lazy] set, whatever flag the caller passed;
    so with [lazy] off, a valid record of the store for (provider,
    normalised keyword) is the answer, and the provider's fetch is not
    called. *)
Theorem fallback_search_is_cache_first (e : Engine) (keyword name : string) (db : DB)
    (provider : javtube.MovieProvider) :
  movieProviders e !! name = Some provider ->
  javtube.Searcher provider = None ->
  Trim keyword <> "" ->
  (forall lazy : bool,
     SearchMovie e keyword name lazy db
     = (r <- getMovieInfoByID (Trim keyword) provider true ;;
        match r with
        | Err err => ret (Err err)
        | Ok info => ret (Ok [ToSearchResult info])
        end) db)
  /\ (forall info : MovieInfo.t,
        javtube.NormalizeID provider (Trim keyword) <> "" ->
        record_for db (javtube.Name provider)
          (javtube.NormalizeID provider (Trim keyword)) = Some info ->
        InfoValid info = true ->
        SearchMovie e keyword name false db
        = (Ok [ToSearchResult info], db,
           [CallNormalizeID (javtube.Name provider) (Trim keyword);
            CallName (javtube.Name provider);
            DBFirst (ByProviderAndID (javtube.NormalizeID provider (Trim keyword))
                       (javtube.Name provider))])).
Proof.
  intros Hp Hs Hk.
  assert (Hfall : forall lazy : bool,
             SearchMovie e keyword name lazy db
             = (r <- getMovieInfoByID (Trim keyword) provider true ;;
                match r with
                | Err err => ret (Err err)
                | Ok info => ret (Ok [ToSearchResult info])
                end) db).
  { intros lazy. unfold engine.SearchMovie.
    rewrite (eqb_empty_false _ Hk), Hp. unfold engine.searchMovie.
    rewrite Hs. reflexivity. }
  split; [exact Hfall|].
  intros info Hid Hrec Hvalid. rewrite Hfall. unfold bind at 1.
  rewrite (getMovieInfoByID_cached _ _ true _ info Hid).
  - reflexivity.
  - unfold engine.cache_hit. rewrite Hrec, Hvalid. reflexivity.
Qed.

(** ** Runs *)

Lemma bind_run {A B} (m : M A) (k : A -> M B) (db : DB) :
  bind m k db
  = (value (k (value (m db)) (store (m db))),
     store (k (value (m db)) (store (m db))),
     trace (m db) ++ trace (k (value (m db)) (store (m db)))).
Proof.
  unfold bind, value, store, trace.
  destruct (m db) as [[a db1] t1]; simpl.
  destruct (k a db1) as [[b db2] t2]; reflexivity.
Qed.

Lemma ret_run {A} (a : A) (db : DB) :
  value (ret a db) = a /\ store (ret a db) = db /\ trace (ret a db) = [].
Proof. now repeat split. Qed.

(** ** The post-processing *)

Lemma weigh_run (e : Engine) (keyword : string) (results : list MovieSearchResult.t) :
  forall (ps : priority.Slice MovieSearchResult.t) (db : DB),
    weigh e keyword results ps db
    = (match weighted e keyword results with
       | Some ws => Some (ps ++ ws)
       | None => None
       end, db, priority_calls e results).
Proof.
  induction results as [|r rest IH]; intros ps db; simpl.
  - unfold ret. now rewrite app_nil_r.
  - destruct (engine.ResultValid result_checks r); simpl; [|apply IH].
    unfold engine.weight.
    destruct (movieProviders e !! MovieSearchResult.Provider r) as [p|]; [|reflexivity].
    unfold provider_Priority. rewrite !bind_run. unfold emit, ret; simpl.
    rewrite IH; simpl. unfold priority.Append.
    destruct (weighted e keyword rest) as [ws|]; [|reflexivity].
    now rewrite <- app_assoc.
Qed.

Lemma postprocess_run (e : Engine) (keyword : string)
    (results : list MovieSearchResult.t) (db : DB) :
  postprocess e keyword (Ok results) db
  = (settle e keyword results, db, priority_calls e results).
Proof.
  unfold engine.postprocess, engine.settle.
  destruct results as [|r rest]; [reflexivity|].
  cbn [length Nat.eqb]. rewrite bind_run, weigh_run.
  unfold value, store, trace; cbn [fst snd app].
  destruct (weighted e keyword (r :: rest));
    unfold ret; cbn [fst snd]; now rewrite app_nil_r.
Qed.

Lemma weighted_registered (e : Engine) (keyword : string)
    (results : list MovieSearchResult.t) :
  registered e results ->
  weighted e keyword results
  = Some (List.map (weigh_one e keyword) (List.filter ResultValid results)).
Proof.
  induction results as [|r rest IH]; intros Hreg; [reflexivity|].
  assert (Hrest : registered e rest).
  { intros x Hx. apply Hreg. now right. }
  simpl. destruct (engine.ResultValid result_checks r) eqn:Hv; simpl; [|now apply IH].
  destruct (Hreg r (or_introl eq_refl) Hv) as [p Hp].
  unfold engine.weight, engine.weigh_one at 1, priority_of. rewrite Hp, (IH Hrest).
  reflexivity.
Qed.

Lemma weighted_unregistered (e : Engine) (keyword : string)
    (results : list MovieSearchResult.t) (r : MovieSearchResult.t) :
  In r results -> ResultValid r = true ->
  movieProviders e !! MovieSearchResult.Provider r = None ->
  weighted e keyword results = None.
Proof.
  induction results as [|x rest IH]; intros Hin Hv Hnone; [destruct Hin|].
  simpl. destruct Hin as [->|Hin].
  - rewrite Hv; simpl. unfold engine.weight. now rewrite Hnone.
  - destruct (engine.ResultValid result_checks x); simpl; [|now apply IH].
    destruct (engine.weight Similarity e keyword x); [|reflexivity].
    now rewrite (IH Hin Hv Hnone).
Qed.

Lemma weighted_stops (e : Engine) (keyword : string)
    (results : list MovieSearchResult.t) :
  weighted e keyword results = None ->
  exists r, In r results /\ ResultValid r = true
            /\ movieProviders e !! MovieSearchResult.Provider r = None.
Proof.
  induction results as [|x rest IH]; [discriminate|].
  simpl. destruct (engine.ResultValid result_checks x) eqn:Hv; simpl.
  - unfold engine.weight.
    destruct (movieProviders e !! MovieSearchResult.Provider x) as [p|] eqn:Hp.
    + destruct (weighted e keyword rest); [discriminate|].
      intros _. destruct (IH eq_refl) as (r & Hin & Hr). exists r. split; [now right|exact Hr].
    + intros _. exists x. repeat split; [now left|exact Hv|exact Hp].
  - intros H. destruct (IH H) as (r & Hin & Hr). exists r. split; [now right|exact Hr].
Qed.

Lemma weighted_items (e : Engine) (keyword : string) (results : list MovieSearchResult.t) :
  forall ws, weighted e keyword results = Some ws ->
             List.map snd ws = List.filter ResultValid results.
Proof.
  induction results as [|r rest IH]; intros ws H; simpl in H.
  - now injection H as <-.
  - simpl. destruct (engine.ResultValid result_checks r); simpl in *; [|now apply IH].
    destruct (engine.weight Similarity e keyword r) as [w|]; [|discriminate].
    destruct (weighted e keyword rest) as [ws'|]; [|discriminate].
    injection H as <-. simpl. f_equal. now apply IH.
Qed.

Lemma insert_perm {Item} (a : float * Item) (ps : priority.Slice Item) :
  priority.insert a ps ≡ₚ a :: ps.
Proof.
  induction ps as [|b rest IH]; simpl; [reflexivity|].
  destruct (PrimFloat.ltb (fst a) (fst b)); [|reflexivity].
  rewrite IH. apply Permutation_swap.
Qed.

Lemma Sort_perm {Item} (ps : priority.Slice Item) : priority.Sort ps ≡ₚ ps.
Proof.
  induction ps as [|a rest IH]; simpl; [reflexivity|].
  rewrite insert_perm. now rewrite IH.
Qed.

Lemma settle_results_valid (e : Engine) (keyword : string)
    (results rs : list MovieSearchResult.t) :
  settle e keyword results = Returns (Ok rs) ->
  rs ≡ₚ List.filter ResultValid results.
Proof.
  unfold engine.settle. destruct results as [|r rest]; [discriminate|].
  destruct (weighted e keyword (r :: rest)) as [ws|] eqn:Hw; [|discriminate].
  intros H. injection H as <-. unfold priority.Underlying.
  rewrite <- (weighted_items _ _ _ _ Hw). apply Permutation_map, Sort_perm.
Qed.

(** ** [searchMovie] and the fan-out *)

Lemma getMovieInfoByID_error_keeps_store (id : string) (provider : javtube.MovieProvider)
    (lazy : bool) (db : DB) (err : error) :
  value (getMovieInfoByID id provider lazy db) = Err err ->
  store (getMovieInfoByID id provider lazy db) = db.
Proof.
  destruct (String.eqb_spec (javtube.NormalizeID provider id) "") as [Hid|Hid].
  - now rewrite (getMovieInfoByID_rejected _ _ _ _ Hid).
  - destruct (cache_hit db provider (javtube.NormalizeID provider id) lazy)
      as [info|] eqn:Hhit.
    + now rewrite (getMovieInfoByID_cached _ _ _ _ _ Hid Hhit).
    + rewrite (getMovieInfoByID_fetched _ _ _ _ Hid Hhit).
      unfold value, store; cbn [fst snd]. now intros ->.
Qed.

Lemma searchMovie_error_keeps_store (keyword : string) (provider : javtube.MovieProvider)
    (lazy : bool) (db : DB) (err : error) :
  value (searchMovie keyword provider lazy db) = Err err ->
  store (searchMovie keyword provider lazy db) = db.
Proof.
  unfold engine.searchMovie.
  destruct (javtube.Searcher provider) as [search|].
  - intros _. destruct lazy; step;
      [destruct (find _ db) as [row|];
       [destruct (engine.InfoValid info_checks row)|]|]; reflexivity.
  - rewrite bind_run. unfold value at 1, store at 1; cbn [fst snd].
    destruct (value (getMovieInfoByID keyword provider true db)) as [info|err'] eqn:Hv;
      unfold ret, value at 1, store at 1; cbn [fst snd]; [discriminate|].
    intros _. now apply getMovieInfoByID_error_keeps_store with err'.
Qed.

Lemma tasks_cons (keyword : string) (provider : javtube.MovieProvider)
    (rest : list javtube.MovieProvider) (db : DB) :
  value (tasks info_checks keyword (provider :: rest) db)
  = respond (value (searchMovie keyword provider false db))
    :: value (tasks info_checks keyword rest (store (searchMovie keyword provider false db)))
  /\ store (tasks info_checks keyword (provider :: rest) db)
     = store (tasks info_checks keyword rest (store (searchMovie keyword provider false db))).
Proof.
  cbn [tasks]. rewrite !bind_run. unfold ret, value, store; cbn [fst snd]. now split.
Qed.

Lemma receive_from (resps : list response) :
  forall acc : list MovieSearchResult.t,
    List.fold_left
      (fun results resp =>
         match Error resp with
         | Some _ => results
         | None => results ++ Results resp
         end) resps acc
    = acc ++ receive resps.
Proof.
  unfold receive. induction resps as [|resp rest IH]; intros acc; simpl.
  - now rewrite app_nil_r.
  - rewrite IH. rewrite (IH (match Error resp with Some _ => [] | None => Results resp end)).
    destruct (Error resp); simpl; [reflexivity|now rewrite app_assoc].
Qed.

Lemma receive_cons (r : result (list MovieSearchResult.t)) (resps : list response) :
  receive (respond r :: resps)
  = match r with Ok results => results | Err _ => [] end ++ receive resps.
Proof.
  unfold receive at 1. cbn [List.fold_left]. rewrite receive_from.
  destruct r; reflexivity.
Qed.

(** Whatever the order of arrival, the receiving loop concatenates the
    result lists of the messages without an error and skips the others. *)
Lemma receive_successes (resps : list response) :
  receive resps
  = List.concat
      (List.map Results
         (List.filter (fun resp => match Error resp with None => true | Some _ => false end)
            resps)).
Proof.
  induction resps as [|resp rest IH]; [reflexivity|].
  unfold receive. cbn [List.fold_left List.filter]. rewrite receive_from, IH.
  destruct (Error resp); reflexivity.
Qed.

Lemma receive_tasks (order : list javtube.MovieProvider) (keyword : string) :
  forall db : DB,
    receive (value (tasks info_checks keyword order db)) = successes keyword order db.
Proof.
  induction order as [|p rest IH]; intros db; [reflexivity|].
  destruct (tasks_cons keyword p rest db) as [-> _].
  rewrite receive_cons, IH. cbn [engine.successes].
  destruct (value (searchMovie keyword p false db)); reflexivity.
Qed.

Lemma searchMovieAll_value (order : list javtube.MovieProvider) (keyword : string)
    (db : DB) :
  value (searchMovieAll order keyword db) = successes keyword order db.
Proof.
  unfold engine.searchMovieAll. rewrite bind_run.
  unfold ret, value at 1; cbn [fst]. apply receive_tasks.
Qed.

Lemma successes_app (keyword : string) (before after : list javtube.MovieProvider) :
  forall db : DB,
    successes keyword (before ++ after) db
    = successes keyword before db
      ++ successes keyword after (store (tasks info_checks keyword before db)).
Proof.
  induction before as [|p rest IH]; intros db; [reflexivity|].
  destruct (tasks_cons keyword p rest db) as [_ ->].
  cbn [app engine.successes]. rewrite IH.
  destruct (value (searchMovie keyword p false db)); [|reflexivity].
  now rewrite app_assoc.
Qed.

(** ** [SearchMovieAll], path by path *)

Lemma gather_providers (order : list javtube.MovieProvider) (keyword : string) (db : DB) :
  value (gather order keyword false db) = Ok (successes keyword order db).
Proof.
  unfold engine.gather. rewrite bind_run.
  destruct (ret_run ([] : list MovieInfo.t) db) as (-> & -> & _).
  cbn [length Nat.ltb Nat.leb]. rewrite bind_run.
  unfold ret, value at 1; cbn [fst]. now rewrite searchMovieAll_value.
Qed.

Lemma gather_cache (order : list javtube.MovieProvider) (keyword : string) (db : DB) :
  List.filter (matches (ByKeyword keyword)) db <> [] ->
  gather order keyword true db
  = (Ok (List.map ToSearchResult (List.filter (matches (ByKeyword keyword)) db)),
     db, [DBFind (ByKeyword keyword)]).
Proof.
  intros Hrows. unfold engine.gather. rewrite bind_run.
  unfold dbFind, value, store, trace; cbn [fst snd].
  destruct (List.filter (matches (ByKeyword keyword)) db) as [|row rows];
    [now destruct Hrows|].
  reflexivity.
Qed.

Lemma SearchMovieAll_run (e : Engine) (order : list javtube.MovieProvider)
    (keyword : string) (lazy : bool) (db : DB) (results : list MovieSearchResult.t) :
  Trim keyword <> "" ->
  value (gather order (Trim keyword) lazy db) = Ok results ->
  SearchMovieAll e order keyword lazy db
  = (settle e (Trim keyword) results,
     store (gather order (Trim keyword) lazy db),
     trace (gather order (Trim keyword) lazy db) ++ priority_calls e results).
Proof.
  intros Hk Hg. unfold engine.SearchMovieAll.
  rewrite (eqb_empty_false _ Hk), bind_run, Hg, postprocess_run. reflexivity.
Qed.

Lemma settle_registered (e : Engine) (keyword : string)
    (results : list MovieSearchResult.t) :
  results <> [] -> registered e results ->
  settle e keyword results = Returns (Ok (ranked e keyword results)).
Proof.
  intros Hne Hreg. unfold engine.settle, engine.ranked.
  rewrite (weighted_registered _ _ _ Hreg).
  destruct results; [now destruct Hne|reflexivity].
Qed.

Lemma settle_unregistered (e : Engine) (keyword : string)
    (results : list MovieSearchResult.t) (r : MovieSearchResult.t) :
  In r results -> ResultValid r = true ->
  movieProviders e !! MovieSearchResult.Provider r = None ->
  settle e keyword results = Panics.
Proof.
  intros Hin Hv Hnone. unfold engine.settle.
  rewrite (weighted_unregistered _ keyword _ _ Hin Hv Hnone).
  destruct results; [destruct Hin|reflexivity].
Qed.

Lemma ranked_perm (e : Engine) (keyword : string) (results : list MovieSearchResult.t) :
  ranked e keyword results ≡ₚ List.filter ResultValid results.
Proof.
  unfold engine.ranked, priority.Underlying. rewrite Sort_perm, List.map_map.
  cbn [engine.weigh_one snd]. now rewrite List.map_id.
Qed.

Lemma priority_calls_quiet (e : Engine) (results : list MovieSearchResult.t) :
  Forall (fun ev => capability_call ev = false) (priority_calls e results).
Proof.
  induction results as [|r rest IH]; simpl; [constructor|].
  destruct (engine.ResultValid result_checks r); simpl; [|exact IH].
  destruct (movieProviders e !! MovieSearchResult.Provider r); now constructor.
Qed.

(** ** Search with all providers *)

(** C6: with [lazy] off, the list [searchMovieAll] hands to the
    post-processing is the concatenation of the result lists of the
    providers whose search succeeded (the receiving loop skips every message
    that carries an error); a provider whose search fails can be struck
    from the order without changing it.  [SearchMovieAll] is
    determined by that list: the only error it returns is [ErrNotFound], and
    only when the list is empty; it panics only on a valid result of an
    unregistered provider; on a non-empty list whose valid results name
    registered providers it returns the ranked valid results. *)
Theorem failed_providers_contribute_nothing (e : Engine)
    (order : list javtube.MovieProvider) (keyword : string) (db : DB) :
  Trim keyword <> "" ->
  (forall resps : list response,
     receive resps
     = List.concat
         (List.map Results
            (List.filter
               (fun resp => match Error resp with None => true | Some _ => false end)
               resps)))
  /\ value (searchMovieAll order (Trim keyword) db) = successes (Trim keyword) order db
  /\ (forall before provider after err,
        order = before ++ provider :: after ->
        value (searchMovie (Trim keyword) provider false
                 (store (tasks info_checks (Trim keyword) before db))) = Err err ->
        successes (Trim keyword) order db
        = successes (Trim keyword) (before ++ after) db)
  /\ value (SearchMovieAll e order keyword false db)
     = settle e (Trim keyword) (successes (Trim keyword) order db)
  /\ (forall err,
        value (SearchMovieAll e order keyword false db) = Returns (Err err) ->
        err = ErrNotFound /\ successes (Trim keyword) order db = [])
  /\ (value (SearchMovieAll e order keyword false db) = Panics ->
      exists r, In r (successes (Trim keyword) order db) /\ ResultValid r = true
                /\ movieProviders e !! MovieSearchResult.Provider r = None)
  /\ (successes (Trim keyword) order db <> [] ->
      registered e (successes (Trim keyword) order db) ->
      value (SearchMovieAll e order keyword false db)
      = Returns (Ok (ranked e (Trim keyword) (successes (Trim keyword) order db)))).
Proof.
  intros Hk.
  assert (Hrun : value (SearchMovieAll e order keyword false db)
                 = settle e (Trim keyword) (successes (Trim keyword) order db)).
  { now rewrite (SearchMovieAll_run e order keyword false db _ Hk
                   (gather_providers order (Trim keyword) db)). }
  split; [exact receive_successes|].
  split; [apply searchMovieAll_value|].
  split.
  { intros before provider after err -> Herr.
    rewrite !successes_app. f_equal. cbn [engine.successes].
    rewrite Herr. now rewrite (searchMovie_error_keeps_store _ _ _ _ _ Herr). }
  split; [exact Hrun|]. split.
  - intros err. rewrite Hrun. unfold engine.settle.
    destruct (successes (Trim keyword) order db) as [|r rest].
    + intros H. injection H as <-. now split.
    + destruct (weighted e (Trim keyword) (r :: rest)); discriminate.
  - split; [|intros Hne Hreg; rewrite Hrun; now apply settle_registered].
    rewrite Hrun. unfold engine.settle.
    destruct (successes (Trim keyword) order db) as [|r rest]; [discriminate|].
    destruct (weighted e (Trim keyword) (r :: rest)) eqn:Hw; [discriminate|].
    intros _. now apply weighted_stops with (keyword := Trim keyword).
Qed.

(** C8: the weighting loop looks the provider of a valid result up in the
    registry and calls [Priority] on what it gets.  Whenever the gathered
    list holds a valid result of an unregistered provider, [SearchMovieAll]
    panics; a matching row of the store whose provider is not registered
    brings this about on the [lazy] path. *)
Theorem unregistered_provider_panics (e : Engine) (order : list javtube.MovieProvider)
    (keyword : string) (db : DB) :
  Trim keyword <> "" ->
  (forall (lazy : bool) (results : list MovieSearchResult.t) (r : MovieSearchResult.t),
     value (gather order (Trim keyword) lazy db) = Ok results ->
     In r results -> ResultValid r = true ->
     movieProviders e !! MovieSearchResult.Provider r = None ->
     value (SearchMovieAll e order keyword lazy db) = Panics)
  /\ (forall row : MovieInfo.t,
        In row db -> keyword_matches (Trim keyword) row = true ->
        ResultValid (ToSearchResult row) = true ->
        movieProviders e !! MovieInfo.Provider row = None ->
        value (SearchMovieAll e order keyword true db) = Panics).
Proof.
  intros Hk.
  assert (Hany : forall lazy results r,
             value (gather order (Trim keyword) lazy db) = Ok results ->
             In r results -> ResultValid r = true ->
             movieProviders e !! MovieSearchResult.Provider r = None ->
             value (SearchMovieAll e order keyword lazy db) = Panics).
  { intros lazy results r Hg Hin Hv Hnone.
    rewrite (SearchMovieAll_run e order keyword lazy db results Hk Hg).
    now apply settle_unregistered with r. }
  split; [exact Hany|].
  intros row Hin Hm Hv Hnone.
  assert (Hrows : In row (List.filter (matches (ByKeyword (Trim keyword))) db)).
  { apply List.filter_In. now split. }
  apply Hany with (results := List.map ToSearchResult
                                (List.filter (matches (ByKeyword (Trim keyword))) db))
                  (r := ToSearchResult row).
  - rewrite gather_cache; [reflexivity|]. intros Hnil. now rewrite Hnil in Hrows.
  - now apply List.in_map.
  - exact Hv.
  - exact Hnone.
Qed.

(** C2 (amended): with [lazy] set and at least one row of the store matching
    the trimmed keyword, [SearchMovieAll] converts the rows to search
    results and does not call the search or fetch of any provider, but the
    results still go through the post-processing: when the valid ones name
    registered providers, the answer is the valid ones in ranked order, not
    the rows in storage order. *)
Theorem cached_rows_are_ranked (e : Engine) (order : list javtube.MovieProvider)
    (keyword : string) (db : DB) :
  Trim keyword <> "" ->
  List.filter (matches (ByKeyword (Trim keyword))) db <> [] ->
  registered e
    (List.map ToSearchResult (List.filter (matches (ByKeyword (Trim keyword))) db)) ->
  SearchMovieAll e order keyword true db
  = (Returns (Ok (ranked e (Trim keyword)
                    (List.map ToSearchResult
                       (List.filter (matches (ByKeyword (Trim keyword))) db)))),
     db,
     DBFind (ByKeyword (Trim keyword))
     :: priority_calls e
          (List.map ToSearchResult
             (List.filter (matches (ByKeyword (Trim keyword))) db)))
  /\ Forall (fun ev => capability_call ev = false)
       (trace (SearchMovieAll e order keyword true db))
  /\ ranked e (Trim keyword)
       (List.map ToSearchResult (List.filter (matches (ByKeyword (Trim keyword))) db))
     ≡ₚ List.filter ResultValid
          (List.map ToSearchResult
             (List.filter (matches (ByKeyword (Trim keyword))) db)).
Proof.
  intros Hk Hrows Hreg.
  assert (Hrun : SearchMovieAll e order keyword true db
                 = (Returns (Ok (ranked e (Trim keyword)
                                   (List.map ToSearchResult
                                      (List.filter (matches (ByKeyword (Trim keyword))) db)))),
                    db,
                    DBFind (ByKeyword (Trim keyword))
                    :: priority_calls e
                         (List.map ToSearchResult
                            (List.filter (matches (ByKeyword (Trim keyword))) db)))).
  { rewrite (SearchMovieAll_run e order keyword true db
               (List.map ToSearchResult
                  (List.filter (matches (ByKeyword (Trim keyword))) db)) Hk);
      rewrite (gather_cache order _ db Hrows); [|reflexivity].
    unfold store, trace; cbn [fst snd app]. rewrite settle_registered; [reflexivity| |exact Hreg].
    destruct (List.filter (matches (ByKeyword (Trim keyword))) db);
      [now destruct Hrows|discriminate]. }
  split; [exact Hrun|]. split; [|apply ranked_perm].
  rewrite Hrun. unfold trace; cbn [snd]. constructor; [reflexivity|].
  apply priority_calls_quiet.
Qed.

(** ** What is saved *)

Lemma upsert_In (info row : MovieInfo.t) (db : DB) :
  In row (upsert info db) -> row = info \/ In row db.
Proof.
  induction db as [|x rest IH]; simpl.
  - intros [<-|[]]. now left.
  - destruct (same_key x info); simpl.
    + intros [<-|H]; [now left|right; now right].
    + intros [<-|H]; [right; now left|].
      destruct (IH H) as [->|H']; [now left|right; now right].
Qed.

Lemma careful_ret {A} (a : A) : careful (ret a).
Proof. intros db. split; [intros info []|intros row H; now left]. Qed.

Lemma careful_bind {A B} (m : M A) (k : A -> M B) :
  careful m -> (forall a, careful (k a)) -> careful (bind m k).
Proof.
  intros Hm Hk db. rewrite bind_run.
  destruct (Hm db) as [Hm1 Hm2].
  destruct (Hk (value (m db)) (store (m db))) as [Hk1 Hk2].
  split; unfold trace at 1, store at 1; cbn [fst snd].
  - intros info Hin. apply List.in_app_or in Hin. destruct Hin; auto.
  - intros row Hin. destruct (Hk2 row Hin) as [H|H]; auto.
Qed.

Ltac quiet :=
  let db := fresh "db" in
  intros db; split;
  [ intros ? [H|[]]; discriminate H
  | intros ? H; left; exact H ].

Lemma careful_provider_Name p : careful (provider_Name p).
Proof. quiet. Qed.

Lemma careful_provider_Priority p : careful (provider_Priority p).
Proof. quiet. Qed.

Lemma careful_provider_NormalizeID p raw : careful (provider_NormalizeID p raw).
Proof. quiet. Qed.

Lemma careful_provider_GetMovieInfoByID p id : careful (provider_GetMovieInfoByID p id).
Proof. quiet. Qed.

Lemma careful_searcher_SearchMovie p search keyword :
  careful (searcher_SearchMovie p search keyword).
Proof. quiet. Qed.

Lemma careful_dbFirst q : careful (dbFirst q).
Proof. quiet. Qed.

Lemma careful_dbFind q : careful (dbFind q).
Proof. quiet. Qed.

Lemma careful_dbCreate (info : MovieInfo.t) :
  InfoValid info = true -> careful (dbCreate info).
Proof.
  intros Hv db. split; unfold dbCreate, trace, store; cbn [fst snd].
  - intros x [H|[]]. now injection H as <-.
  - intros row H. destruct (upsert_In _ _ _ H) as [->|H']; auto.
Qed.

Create HintDb careful discriminated.
Hint Resolve careful_ret careful_provider_Name careful_provider_Priority
  careful_provider_NormalizeID careful_provider_GetMovieInfoByID
  careful_searcher_SearchMovie careful_dbFirst careful_dbFind careful_dbCreate
  : careful.

Lemma careful_autosave (r : result MovieInfo.t) : careful (autosave info_checks r).
Proof.
  destruct r as [info|err]; simpl; auto with careful.
  destruct (engine.InfoValid info_checks info) eqn:Hv; auto with careful.
Qed.

Lemma careful_getMovieInfoByID id provider lazy :
  careful (getMovieInfoByID id provider lazy).
Proof.
  assert (Hfetch : forall nid,
             careful (r <- provider_GetMovieInfoByID provider nid ;;
                      autosave info_checks r ;;; ret r)).
  { intros nid. apply careful_bind; [auto with careful|]. intros r.
    apply careful_bind; [apply careful_autosave|auto with careful]. }
  unfold engine.getMovieInfoByID. apply careful_bind; [auto with careful|].
  intros nid. destruct (String.eqb nid ""); [auto with careful|].
  apply careful_bind.
  - destruct lazy; [|auto with careful].
    apply careful_bind; auto with careful.
  - intros [info|]; [|apply Hfetch].
    destruct (engine.InfoValid info_checks info); [auto with careful|apply Hfetch].
Qed.

Lemma careful_searchMovie keyword provider lazy :
  careful (searchMovie keyword provider lazy).
Proof.
  unfold engine.searchMovie. destruct (javtube.Searcher provider) as [search|].
  - apply careful_bind.
    + destruct lazy; [|auto with careful]. apply careful_bind; auto with careful.
    + intros [info|]; [|auto with careful].
      destruct (engine.InfoValid info_checks info); auto with careful.
  - apply careful_bind; [apply careful_getMovieInfoByID|].
    intros [info|err]; auto with careful.
Qed.

Lemma careful_tasks keyword order : careful (tasks info_checks keyword order).
Proof.
  induction order as [|p rest IH]; cbn [tasks]; [auto with careful|].
  apply careful_bind; [apply careful_searchMovie|]. intros r.
  apply careful_bind; [exact IH|]. auto with careful.
Qed.

Lemma careful_gather order keyword lazy : careful (gather order keyword lazy).
Proof.
  unfold engine.gather. apply careful_bind.
  - destruct lazy; auto with careful.
  - intros rows. destruct (Nat.ltb 0 (length rows)); [auto with careful|].
    apply careful_bind; [|auto with careful].
    unfold engine.searchMovieAll. apply careful_bind; [apply careful_tasks|].
    auto with careful.
Qed.

Lemma careful_weigh e keyword results :
  forall ps, careful (weigh e keyword results ps).
Proof.
  induction results as [|r rest IH]; intros ps; cbn [engine.weigh]; [auto with careful|].
  destruct (negb (engine.ResultValid result_checks r)); [apply IH|].
  destruct (movieProviders e !! MovieSearchResult.Provider r); [|auto with careful].
  apply careful_bind; [auto with careful|]. intros prio. apply IH.
Qed.

Lemma careful_postprocess e keyword r : careful (postprocess e keyword r).
Proof.
  unfold engine.postprocess. destruct r as [results|err]; [|auto with careful].
  destruct (Nat.eqb (length results) 0); [auto with careful|].
  apply careful_bind; [apply careful_weigh|].
  intros [ps|]; auto with careful.
Qed.

Lemma careful_SearchMovieAll e order keyword lazy :
  careful (SearchMovieAll e order keyword lazy).
Proof.
  unfold engine.SearchMovieAll. destruct (String.eqb (Trim keyword) "");
    [auto with careful|].
  apply careful_bind; [apply careful_gather|]. intros r. apply careful_postprocess.
Qed.

Lemma careful_SearchMovie e keyword name lazy :
  careful (SearchMovie e keyword name lazy).
Proof.
  unfold engine.SearchMovie. destruct (String.eqb (Trim keyword) "");
    [auto with careful|].
  destruct (movieProviders e !! name); [apply careful_searchMovie|auto with careful].
Qed.

Lemma careful_GetMovieInfoByID e id name lazy :
  careful (GetMovieInfoByID e id name lazy).
Proof.
  unfold engine.GetMovieInfoByID.
  destruct (movieProviders e !! name); [apply careful_getMovieInfoByID|auto with careful].
Qed.

Lemma SearchMovieAll_results_valid e order keyword lazy db rs :
  value (SearchMovieAll e order keyword lazy db) = Returns (Ok rs) ->
  forall r, In r rs -> ResultValid r = true.
Proof.
  unfold engine.SearchMovieAll.
  destruct (String.eqb (Trim keyword) ""); [discriminate|].
  rewrite bind_run. unfold value at 1; cbn [fst].
  destruct (value (gather order (Trim keyword) lazy db)) as [results|err].
  - rewrite postprocess_run. unfold value; cbn [fst]. intros Hs r Hin.
    apply settle_results_valid in Hs.
    assert (Hin' : In r (List.filter ResultValid results)).
    { apply (Permutation_in _ Hs Hin). }
    now apply List.filter_In in Hin'.
  - discriminate.
Qed.

Lemma empty_field_invalid (info : MovieInfo.t) :
  MovieInfo.ID info = "" \/ MovieInfo.Number info = "" ->
  InfoValid info = false /\ ResultValid (ToSearchResult info) = false.
Proof.
  unfold engine.InfoValid, engine.ResultValid, ToSearchResult; cbn.
  intros [->| ->]; rewrite nonempty_empty; cbn;
    rewrite ?andb_false_r; now split.
Qed.

(** C3 (amended): an info whose ID or number is empty is never upserted by
    [GetMovieInfoByID], [SearchMovie] or [SearchMovieAll] (no [Create] of
    their traces carries it, and it is in the store afterwards only if it
    was there before), and its search result is in no list that
    [SearchMovieAll] returns.  [GetMovieInfoByID] does not validate what it
    returns: when the provider's fetch is reached, its answer is the
    answer. *)
Theorem invalid_info_is_never_saved (e : Engine) (order : list javtube.MovieProvider)
    (keyword id name : string) (lazy : bool) (db : DB) (info : MovieInfo.t) :
  MovieInfo.ID info = "" \/ MovieInfo.Number info = "" ->
  (~ In (DBCreate info) (trace (GetMovieInfoByID e id name lazy db))
   /\ ~ In (DBCreate info) (trace (SearchMovie e keyword name lazy db))
   /\ ~ In (DBCreate info) (trace (SearchMovieAll e order keyword lazy db)))
  /\ ((In info (store (GetMovieInfoByID e id name lazy db)) -> In info db)
      /\ (In info (store (SearchMovie e keyword name lazy db)) -> In info db)
      /\ (In info (store (SearchMovieAll e order keyword lazy db)) -> In info db))
  /\ (forall rs : list MovieSearchResult.t,
        value (SearchMovieAll e order keyword lazy db) = Returns (Ok rs) ->
        ~ In (ToSearchResult info) rs)
  /\ (forall provider : javtube.MovieProvider,
        movieProviders e !! name = Some provider ->
        javtube.NormalizeID provider id <> "" ->
        cache_hit db provider (javtube.NormalizeID provider id) lazy = None ->
        value (GetMovieInfoByID e id name lazy db)
        = javtube.GetMovieInfoByID provider (javtube.NormalizeID provider id)).
Proof.
  intros Hempty. destruct (empty_field_invalid info Hempty) as [Hinfo Hresult].
  destruct (careful_GetMovieInfoByID e id name lazy db) as [G1 G2].
  destruct (careful_SearchMovie e keyword name lazy db) as [S1 S2].
  destruct (careful_SearchMovieAll e order keyword lazy db) as [A1 A2].
  assert (Hno : forall t : list event,
             (forall i, In (DBCreate i) t -> InfoValid i = true) ->
             ~ In (DBCreate info) t).
  { intros t Ht Hin. specialize (Ht info Hin). congruence. }
  assert (Hold : forall rows : DB,
             (forall row, In row rows -> In row db \/ InfoValid row = true) ->
             In info rows -> In info db).
  { intros rows Hrows Hin. destruct (Hrows info Hin) as [H|H]; [exact H|congruence]. }
  repeat split; eauto.
  - intros rs Hrs Hin.
    pose proof (SearchMovieAll_results_valid e order keyword lazy db rs Hrs _ Hin).
    congruence.
  - intros provider Hp Hid Hmiss. unfold engine.GetMovieInfoByID. rewrite Hp.
    now rewrite (getMovieInfoByID_fetched _ _ _ _ Hid Hmiss).
Qed.

(** ** Results that are all invalid *)

Lemma weighted_all_invalid (e : Engine) (keyword : string)
    (results : list MovieSearchResult.t) :
  Forall (fun r => ResultValid r = false) results ->
  weighted e keyword results = Some [].
Proof.
  induction 1 as [|r rest Hr _ IH]; [reflexivity|].
  simpl. now rewrite Hr.
Qed.

(** The emptiness test of the deferred function comes before the
    validation: a non-empty list of invalid results is answered with an
    empty list and no error. *)
Lemma settle_all_invalid (e : Engine) (keyword : string)
    (results : list MovieSearchResult.t) :
  results <> [] ->
  Forall (fun r => ResultValid r = false) results ->
  settle e keyword results = Returns (Ok []).
Proof.
  intros Hne Hinv. unfold engine.settle. rewrite (weighted_all_invalid _ _ _ Hinv).
  destruct results; [now destruct Hne|reflexivity].
Qed.

(** * Further properties of the operations *)

(** ** Fetch by ID: rejection, saving, and the cache afterwards *)

Lemma record_for_upsert (info : MovieInfo.t) (db : DB) :
  record_for (upsert info db) (MovieInfo.Provider info) (MovieInfo.ID info) = Some info.
Proof.
  unfold record_for. induction db as [|row rest IH]; cbn [upsert List.find matches].
  - now rewrite !String.eqb_refl.
  - destruct (same_key row info) eqn:Hk; cbn [List.find matches].
    + now rewrite !String.eqb_refl.
    + unfold same_key in Hk. rewrite Hk. exact IH.
Qed.

(** An ID the provider does not recognise ([NormalizeID] yields the empty
    string) makes [GetMovieInfoByID] fail with [ErrInvalidID] right after
    the normalisation: no cache query, no fetch, store unchanged; so does
    [SearchMovie] on a provider without keyword search, whose keyword is
    the ID. *)
Theorem unrecognised_id_is_rejected (e : Engine) (id keyword name : string)
    (lazy : bool) (db : DB) (provider : javtube.MovieProvider) :
  movieProviders e !! name = Some provider ->
  (javtube.NormalizeID provider id = "" ->
   GetMovieInfoByID e id name lazy db
   = (Err ErrInvalidID, db, [CallNormalizeID (javtube.Name provider) id]))
  /\ (javtube.Searcher provider = None ->
      Trim keyword <> "" ->
      javtube.NormalizeID provider (Trim keyword) = "" ->
      SearchMovie e keyword name lazy db
      = (Err ErrInvalidID, db, [CallNormalizeID (javtube.Name provider) (Trim keyword)])).
Proof.
  intros Hp. split.
  - intros Hid. unfold engine.GetMovieInfoByID. rewrite Hp.
    now apply getMovieInfoByID_rejected.
  - intros Hs Hk Hid. unfold engine.SearchMovie.
    rewrite (eqb_empty_false _ Hk), Hp. unfold engine.searchMovie. rewrite Hs.
    unfold bind. now rewrite (getMovieInfoByID_rejected _ _ true db Hid).
Qed.

(** When the fetch is reached and answers with a valid info filed under the
    requested key, [GetMovieInfoByID] returns it and upserts it; the same
    call with [lazy] on the store it leaves is then answered from the cache,
    without a fetch and without a write. *)
Theorem fetched_info_is_cached (e : Engine) (id name : string) (lazy : bool) (db : DB)
    (provider : javtube.MovieProvider) (info : MovieInfo.t) :
  movieProviders e !! name = Some provider ->
  javtube.NormalizeID provider id <> "" ->
  cache_hit db provider (javtube.NormalizeID provider id) lazy = None ->
  javtube.GetMovieInfoByID provider (javtube.NormalizeID provider id) = Ok info ->
  InfoValid info = true ->
  MovieInfo.ID info = javtube.NormalizeID provider id ->
  MovieInfo.Provider info = javtube.Name provider ->
  GetMovieInfoByID e id name lazy db
  = (Ok info, upsert info db,
     lookup_events provider id lazy
     ++ [CallGetMovieInfoByID (javtube.Name provider) (javtube.NormalizeID provider id);
         DBCreate info])
  /\ GetMovieInfoByID e id name true (upsert info db)
     = (Ok info, upsert info db,
        [CallNormalizeID (javtube.Name provider) id;
         CallName (javtube.Name provider);
         DBFirst (ByProviderAndID (javtube.NormalizeID provider id)
                    (javtube.Name provider))]).
Proof.
  intros Hp Hid Hmiss Hfetch Hvalid Hkey Hprov.
  unfold engine.GetMovieInfoByID. rewrite Hp. split.
  - rewrite (getMovieInfoByID_fetched _ _ _ _ Hid Hmiss), Hfetch, Hvalid. reflexivity.
  - rewrite (getMovieInfoByID_cached _ _ true _ info Hid); [reflexivity|].
    unfold engine.cache_hit. rewrite <- Hkey, <- Hprov, record_for_upsert, Hvalid.
    reflexivity.
Qed.

(** With [lazy] off, [GetMovieInfoByID] does not look at the store: whatever
    record it holds, the provider's fetch is called once and its answer is
    the answer; a valid fetched info replaces the record of its key. *)
Theorem eager_fetch_ignores_the_cache (e : Engine) (id name : string) (db : DB)
    (provider : javtube.MovieProvider) :
  movieProviders e !! name = Some provider ->
  javtube.NormalizeID provider id <> "" ->
  value (GetMovieInfoByID e id name false db)
  = javtube.GetMovieInfoByID provider (javtube.NormalizeID provider id)
  /\ (forall q, ~ In (DBFirst q) (trace (GetMovieInfoByID e id name false db)))
  /\ List.count_occ
       (fun a b : bool => Bool.bool_dec a b)
       (List.map capability_call (trace (GetMovieInfoByID e id name false db))) true = 1
  /\ (forall info,
        javtube.GetMovieInfoByID provider (javtube.NormalizeID provider id) = Ok info ->
        InfoValid info = true ->
        record_for (store (GetMovieInfoByID e id name false db))
          (MovieInfo.Provider info) (MovieInfo.ID info) = Some info).
Proof.
  intros Hp Hid. unfold engine.GetMovieInfoByID. rewrite Hp.
  rewrite (getMovieInfoByID_fetched _ _ false db Hid eq_refl).
  unfold value, store, trace, lookup_events; cbn [fst snd app].
  split; [reflexivity|].
  destruct (javtube.GetMovieInfoByID provider (javtube.NormalizeID provider id))
    as [fetched|err]; [destruct (engine.InfoValid info_checks fetched) eqn:Hv|].
  - split; [intros q [H|[H|[H|[]]]]; discriminate H|]. split; [reflexivity|].
    intros info H _. injection H as <-. apply record_for_upsert.
  - split; [intros q [H|[H|[]]]; discriminate H|]. split; [reflexivity|].
    intros info H Hinfo. injection H as <-. congruence.
  - split; [intros q [H|[H|[]]]; discriminate H|]. split; [reflexivity|].
    intros info H. discriminate H.
Qed.

(** A stored record that fails validation is not served: with [lazy] on and
    an invalid record under (provider, normalised ID), [GetMovieInfoByID]
    goes on to the provider, returns its answer, and a valid fetched info
    filed under that key takes the place of the invalid record. *)
Theorem invalid_cached_record_is_not_served (e : Engine) (id name : string) (db : DB)
    (provider : javtube.MovieProvider) (stale : MovieInfo.t) :
  movieProviders e !! name = Some provider ->
  javtube.NormalizeID provider id <> "" ->
  record_for db (javtube.Name provider) (javtube.NormalizeID provider id) = Some stale ->
  InfoValid stale = false ->
  value (GetMovieInfoByID e id name true db)
  = javtube.GetMovieInfoByID provider (javtube.NormalizeID provider id)
  /\ In (CallGetMovieInfoByID (javtube.Name provider) (javtube.NormalizeID provider id))
       (trace (GetMovieInfoByID e id name true db))
  /\ (forall info,
        javtube.GetMovieInfoByID provider (javtube.NormalizeID provider id) = Ok info ->
        InfoValid info = true ->
        MovieInfo.ID info = javtube.NormalizeID provider id ->
        MovieInfo.Provider info = javtube.Name provider ->
        record_for (store (GetMovieInfoByID e id name true db))
          (javtube.Name provider) (javtube.NormalizeID provider id) = Some info).
Proof.
  intros Hp Hid Hrec Hstale. unfold engine.GetMovieInfoByID. rewrite Hp.
  assert (Hmiss : cache_hit db provider (javtube.NormalizeID provider id) true = None).
  { unfold engine.cache_hit. now rewrite Hrec, Hstale. }
  rewrite (getMovieInfoByID_fetched _ _ true db Hid Hmiss).
  unfold value, store, trace, lookup_events; cbn [fst snd app].
  split; [reflexivity|]. split; [do 3 right; now left|].
  intros info Hfetch Hv Hkey Hprov. rewrite Hfetch, Hv, <- Hkey, <- Hprov.
  apply record_for_upsert.
Qed.

(** ** Search with one provider that supports keyword search *)


(** A provider with keyword search is only ever searched: whatever [lazy]
    is, [SearchMovie] leaves the store unchanged, performs no [Create] and
    no fetch by ID; with [lazy] off it does not read the store either and
    returns the provider's answer, results or error, as it is. *)
Theorem search_answer_is_passed_through (e : Engine) (keyword name : string)
    (lazy : bool) (db : DB) (provider : javtube.MovieProvider)
    (search : string -> result (list MovieSearchResult.t)) :
  movieProviders e !! name = Some provider ->
  javtube.Searcher provider = Some search ->
  Trim keyword <> "" ->
  SearchMovie e keyword name false db
  = (search (Trim keyword), db, [CallSearchMovie (javtube.Name provider) (Trim keyword)])
  /\ store (SearchMovie e keyword name lazy db) = db
  /\ (forall info, ~ In (DBCreate info) (trace (SearchMovie e keyword name lazy db)))
  /\ (forall p id, ~ In (CallGetMovieInfoByID p id)
                     (trace (SearchMovie e keyword name lazy db)))
  /\ (value (SearchMovie e keyword name lazy db) = search (Trim keyword)
      \/ exists info, In info db /\ InfoValid info = true
                      /\ value (SearchMovie e keyword name lazy db)
                         = Ok [ToSearchResult info]).
Proof.
  intros Hp Hs Hk. unfold engine.SearchMovie. rewrite (eqb_empty_false _ Hk), Hp.
  unfold engine.searchMovie. rewrite Hs. split; [reflexivity|].
  destruct lazy; step.
  - destruct (find _ db) as [row|] eqn:Hfind;
      [destruct (engine.InfoValid info_checks row) eqn:Hv|];
      unfold store, trace, value; cbn [fst snd].
    + repeat split.
      * intros info [H|[H|[]]]; discriminate H.
      * intros p id [H|[H|[]]]; discriminate H.
      * right. exists row. apply List.find_some in Hfind. now repeat split.
    + repeat split.
      * intros info [H|[H|[H|[]]]]; discriminate H.
      * intros p id [H|[H|[H|[]]]]; discriminate H.
      * now left.
    + repeat split.
      * intros info [H|[H|[H|[]]]]; discriminate H.
      * intros p id [H|[H|[H|[]]]]; discriminate H.
      * now left.
  - unfold store, trace, value; cbn [fst snd]. repeat split.
    + intros info [H|[]]; discriminate H.
    + intros p id [H|[]]; discriminate H.
    + now left.
Qed.

(** ** Search with one provider that only fetches *)

(** [SearchMovie] on a provider without keyword search fills the cache: when
    the fetch is reached and answers with a valid info filed under the
    requested key, the info is upserted and returned as the one result, and
    a later [GetMovieInfoByID] with [lazy] on for that ID is served from the
    store without calling the provider. *)
Theorem fallback_search_fills_the_cache (e : Engine) (keyword name : string)
    (lazy : bool) (db : DB) (provider : javtube.MovieProvider) (info : MovieInfo.t) :
  movieProviders e !! name = Some provider ->
  javtube.Searcher provider = None ->
  Trim keyword <> "" ->
  javtube.NormalizeID provider (Trim keyword) <> "" ->
  cache_hit db provider (javtube.NormalizeID provider (Trim keyword)) true = None ->
  javtube.GetMovieInfoByID provider (javtube.NormalizeID provider (Trim keyword)) = Ok info ->
  InfoValid info = true ->
  MovieInfo.ID info = javtube.NormalizeID provider (Trim keyword) ->
  MovieInfo.Provider info = javtube.Name provider ->
  value (SearchMovie e keyword name lazy db) = Ok [ToSearchResult info]
  /\ store (SearchMovie e keyword name lazy db) = upsert info db
  /\ GetMovieInfoByID e (Trim keyword) name true (store (SearchMovie e keyword name lazy db))
     = (Ok info, upsert info db,
        [CallNormalizeID (javtube.Name provider) (Trim keyword);
         CallName (javtube.Name provider);
         DBFirst (ByProviderAndID (javtube.NormalizeID provider (Trim keyword))
                    (javtube.Name provider))]).
Proof.
  intros Hp Hs Hk Hid Hmiss Hfetch Hvalid Hkey Hprov.
  assert (Hrun : SearchMovie e keyword name lazy db
                 = (Ok [ToSearchResult info], upsert info db,
                    (lookup_events provider (Trim keyword) true
                     ++ [CallGetMovieInfoByID (javtube.Name provider)
                           (javtube.NormalizeID provider (Trim keyword));
                         DBCreate info]) ++ [])).
  { unfold engine.SearchMovie. rewrite (eqb_empty_false _ Hk), Hp.
    unfold engine.searchMovie. rewrite Hs. unfold bind at 1.
    rewrite (getMovieInfoByID_fetched _ _ true db Hid Hmiss), Hfetch, Hvalid.
    reflexivity. }
  rewrite Hrun. unfold value, store; cbn [fst snd].
  split; [reflexivity|]. split; [reflexivity|].
  unfold engine.GetMovieInfoByID. rewrite Hp.
  rewrite (getMovieInfoByID_cached _ _ true _ info Hid); [reflexivity|].
  unfold engine.cache_hit. rewrite <- Hkey, <- Hprov, record_for_upsert, Hvalid.
  reflexivity.
Qed.

(** ** Search with all providers: the paths and their outcomes *)

Lemma tasks_cons_trace (keyword : string) (provider : javtube.MovieProvider)
    (rest : list javtube.MovieProvider) (db : DB) :
  trace (tasks info_checks keyword (provider :: rest) db)
  = trace (searchMovie keyword provider false db)
    ++ trace (tasks info_checks keyword rest (store (searchMovie keyword provider false db))).
Proof.
  cbn [tasks]. rewrite !bind_run. unfold ret, trace; cbn [fst snd].
  now rewrite app_nil_r.
Qed.

(** The run of [gather] when the cache yields nothing. *)
Lemma gather_miss (order : list javtube.MovieProvider) (keyword : string)
    (lazy : bool) (db : DB) :
  lazy = false \/ List.filter (matches (ByKeyword keyword)) db = [] ->
  gather order keyword lazy db
  = (Ok (successes keyword order db),
     store (tasks info_checks keyword order db),
     (if lazy then [DBFind (ByKeyword keyword)] else [])
     ++ trace (tasks info_checks keyword order db)).
Proof.
  intros Hmiss.
  assert (Hall : (results <- searchMovieAll order keyword ;; ret (Ok results)) db
                 = (Ok (successes keyword order db),
                    store (tasks info_checks keyword order db),
                    trace (tasks info_checks keyword order db))).
  { rewrite bind_run, searchMovieAll_value. unfold engine.searchMovieAll.
    rewrite bind_run. unfold ret, value, store, trace; cbn [fst snd].
    now rewrite !app_nil_r. }
  unfold engine.gather. unfold bind at 1.
  destruct lazy.
  - destruct Hmiss as [Hmiss|Hmiss]; [discriminate Hmiss|].
    unfold dbFind. rewrite Hmiss. cbn [length Nat.ltb Nat.leb].
    rewrite Hall. reflexivity.
  - unfold ret at 1. cbn [length Nat.ltb Nat.leb]. rewrite Hall. reflexivity.
Qed.

Lemma gather_ok (order : list javtube.MovieProvider) (keyword : string)
    (lazy : bool) (db : DB) :
  exists results, value (gather order keyword lazy db) = Ok results.
Proof.
  destruct lazy.
  - destruct (List.filter (matches (ByKeyword keyword)) db) as [|row rows] eqn:Hrows.
    + rewrite gather_miss; [eexists; reflexivity|now right].
    + rewrite gather_cache; [eexists; reflexivity|]. now rewrite Hrows.
  - rewrite gather_miss; [eexists; reflexivity|now left].
Qed.

(** With [lazy] on and no row of the store matching the trimmed keyword,
    [SearchMovieAll] does what it does with [lazy] off: same outcome, same
    store afterwards, and the same trace after the one cache query. *)
Theorem lazy_miss_searches_the_providers (e : Engine)
    (order : list javtube.MovieProvider) (keyword : string) (db : DB) :
  Trim keyword <> "" ->
  List.filter (matches (ByKeyword (Trim keyword))) db = [] ->
  SearchMovieAll e order keyword true db
  = (value (SearchMovieAll e order keyword false db),
     store (SearchMovieAll e order keyword false db),
     DBFind (ByKeyword (Trim keyword)) :: trace (SearchMovieAll e order keyword false db)).
Proof.
  intros Hk Hrows.
  rewrite (SearchMovieAll_run e order keyword true db
             (successes (Trim keyword) order db) Hk);
    [|rewrite gather_miss; [reflexivity|now right]].
  rewrite (SearchMovieAll_run e order keyword false db
             (successes (Trim keyword) order db) Hk);
    [|rewrite gather_miss; [reflexivity|now left]].
  rewrite !gather_miss by (now right || now left).
  reflexivity.
Qed.

Lemma tasks_all_failed (keyword : string) (order : list javtube.MovieProvider) (db : DB) :
  Forall (fun p => exists err, value (searchMovie keyword p false db) = Err err) order ->
  successes keyword order db = [] /\ store (tasks info_checks keyword order db) = db.
Proof.
  induction 1 as [|p rest [err Herr] _ IH]; [now split|].
  destruct (tasks_cons keyword p rest db) as [_ ->].
  cbn [engine.successes]. rewrite Herr.
  now rewrite (searchMovie_error_keeps_store _ _ _ _ _ Herr).
Qed.

(** When the search of every provider fails, and so when there is no
    provider at all, [SearchMovieAll] with [lazy] off returns [ErrNotFound]
    (the providers' errors are dropped) and leaves the store as it was. *)
Theorem all_providers_failing_is_not_found (e : Engine)
    (order : list javtube.MovieProvider) (keyword : string) (db : DB) :
  Trim keyword <> "" ->
  Forall (fun p => exists err, value (searchMovie (Trim keyword) p false db) = Err err)
    order ->
  value (SearchMovieAll e order keyword false db) = Returns (Err ErrNotFound)
  /\ store (SearchMovieAll e order keyword false db) = db.
Proof.
  intros Hk Hfail. destruct (tasks_all_failed _ _ _ Hfail) as [Hnone Hstore].
  rewrite (SearchMovieAll_run e order keyword false db [] Hk);
    [|rewrite gather_miss; [now rewrite Hnone|now left]].
  rewrite gather_miss by now left.
  unfold value, store; cbn [fst snd]. now split.
Qed.

(** The errors of [SearchMovieAll]: [ErrInvalidKeyword], exactly for the
    keywords that trim to the empty string, and [ErrNotFound], only when
    nothing was gathered; an error of a provider is never returned. *)
Theorem SearchMovieAll_error_kinds (e : Engine) (order : list javtube.MovieProvider)
    (keyword : string) (lazy : bool) (db : DB) (err : error) :
  value (SearchMovieAll e order keyword lazy db) = Returns (Err err) ->
  (Trim keyword = "" /\ err = ErrInvalidKeyword)
  \/ (Trim keyword <> "" /\ err = ErrNotFound
      /\ value (gather order (Trim keyword) lazy db) = Ok []).
Proof.
  destruct (String.eqb_spec (Trim keyword) "") as [Hk|Hk].
  - unfold engine.SearchMovieAll. rewrite Hk. cbn. intros H. injection H as <-.
    now left.
  - destruct (gather_ok order (Trim keyword) lazy db) as [results Hg].
    rewrite (SearchMovieAll_run e order keyword lazy db results Hk Hg).
    unfold value at 1; cbn [fst]. unfold engine.settle.
    destruct results as [|r rest].
    + intros H. injection H as <-. right. now repeat split.
    + destruct (weighted e (Trim keyword) (r :: rest)); discriminate.
Qed.

(** The ranking neither loses nor invents results: a list that
    [SearchMovieAll] returns holds the valid gathered results, each as often
    as it was gathered, whatever their order. *)
Theorem ranking_keeps_the_valid_results (e : Engine)
    (order : list javtube.MovieProvider) (keyword : string) (lazy : bool) (db : DB)
    (rs : list MovieSearchResult.t) :
  value (SearchMovieAll e order keyword lazy db) = Returns (Ok rs) ->
  (lazy = false \/ List.filter (matches (ByKeyword (Trim keyword))) db = [] ->
   rs ≡ₚ List.filter ResultValid (successes (Trim keyword) order db))
  /\ (lazy = true -> List.filter (matches (ByKeyword (Trim keyword))) db <> [] ->
      rs ≡ₚ List.filter ResultValid
              (List.map ToSearchResult
                 (List.filter (matches (ByKeyword (Trim keyword))) db))).
Proof.
  intros Hrs.
  destruct (String.eqb_spec (Trim keyword) "") as [Hk|Hk].
  { unfold engine.SearchMovieAll in Hrs. rewrite Hk in Hrs. discriminate Hrs. }
  split.
  - intros Hmiss.
    rewrite (SearchMovieAll_run e order keyword lazy db
               (successes (Trim keyword) order db) Hk) in Hrs;
      [|now rewrite gather_miss].
    now apply settle_results_valid in Hrs.
  - intros -> Hrows.
    rewrite (SearchMovieAll_run e order keyword true db
               (List.map ToSearchResult
                  (List.filter (matches (ByKeyword (Trim keyword))) db)) Hk) in Hrs;
      [|now rewrite gather_cache].
    now apply settle_results_valid in Hrs.
Qed.

Lemma tasks_searching (keyword : string) (order : list javtube.MovieProvider) (db : DB) :
  Forall (fun p => is_Some (javtube.Searcher p)) order ->
  store (tasks info_checks keyword order db) = db
  /\ trace (tasks info_checks keyword order db)
     = List.map (fun p => CallSearchMovie (javtube.Name p) keyword) order.
Proof.
  induction 1 as [|p rest [search Hs] _ IH]; [now split|].
  assert (Hrun : searchMovie keyword p false db
                 = (search keyword, db, [CallSearchMovie (javtube.Name p) keyword])).
  { unfold engine.searchMovie. rewrite Hs. reflexivity. }
  destruct (tasks_cons keyword p rest db) as [_ ->].
  rewrite tasks_cons_trace, Hrun.
  change (store (search keyword, db, [CallSearchMovie (javtube.Name p) keyword]))
    with db.
  destruct IH as [-> ->]. now split.
Qed.

(** When every provider supports keyword search, [SearchMovieAll] with
    [lazy] off never touches the store: it searches each provider once, in
    the order of the tasks, reads the priorities for the ranking, and leaves
    the store as it was. *)
Theorem searching_providers_leave_the_store (e : Engine)
    (order : list javtube.MovieProvider) (keyword : string) (db : DB) :
  Trim keyword <> "" ->
  Forall (fun p => is_Some (javtube.Searcher p)) order ->
  store (SearchMovieAll e order keyword false db) = db
  /\ trace (SearchMovieAll e order keyword false db)
     = List.map (fun p => CallSearchMovie (javtube.Name p) (Trim keyword)) order
       ++ priority_calls e (successes (Trim keyword) order db).
Proof.
  intros Hk Hsearch.
  destruct (tasks_searching (Trim keyword) order db Hsearch) as [Hstore Htrace].
  rewrite (SearchMovieAll_run e order keyword false db
             (successes (Trim keyword) order db) Hk);
    [|rewrite gather_miss; [reflexivity|now left]].
  rewrite gather_miss by now left.
  unfold store, trace; cbn [fst snd app]. now rewrite <- Htrace.
Qed.

(** ** Errors *)

Lemma searchMovie_empty_keeps_store (keyword : string) (provider : javtube.MovieProvider)
    (lazy : bool) (db : DB) :
  value (searchMovie keyword provider lazy db) = Ok [] ->
  store (searchMovie keyword provider lazy db) = db.
Proof.
  unfold engine.searchMovie.
  destruct (javtube.Searcher provider) as [search|].
  - intros _. destruct lazy; step;
      [destruct (find _ db) as [row|];
       [destruct (engine.InfoValid info_checks row)|]|]; reflexivity.
  - rewrite bind_run. unfold value at 1; cbn [fst].
    destruct (value (getMovieInfoByID keyword provider true db)); discriminate.
Qed.

Lemma tasks_nothing_gathered (keyword : string) (order : list javtube.MovieProvider) :
  forall db : DB,
    successes keyword order db = [] ->
    store (tasks info_checks keyword order db) = db.
Proof.
  induction order as [|p rest IH]; intros db Hnone; [reflexivity|].
  destruct (tasks_cons keyword p rest db) as [_ ->].
  cbn [engine.successes] in Hnone.
  destruct (value (searchMovie keyword p false db)) as [rs|err] eqn:Hrun.
  - apply app_eq_nil in Hnone. destruct Hnone as [-> Hrest].
    rewrite (searchMovie_empty_keeps_store _ _ _ _ Hrun) in *. now apply IH.
  - rewrite (searchMovie_error_keeps_store _ _ _ _ _ Hrun) in *. now apply IH.
Qed.

(** An operation that returns an error has not changed the store: the
    upsert happens only on a successful fetch, and a search of all
    providers that gathered nothing has saved nothing. *)
Theorem errors_leave_the_store_unchanged (e : Engine)
    (order : list javtube.MovieProvider) (keyword id name : string) (lazy : bool)
    (db : DB) (err : error) :
  (value (GetMovieInfoByID e id name lazy db) = Err err ->
   store (GetMovieInfoByID e id name lazy db) = db)
  /\ (value (SearchMovie e keyword name lazy db) = Err err ->
      store (SearchMovie e keyword name lazy db) = db)
  /\ (value (SearchMovieAll e order keyword lazy db) = Returns (Err err) ->
      store (SearchMovieAll e order keyword lazy db) = db).
Proof.
  split; [|split].
  - unfold engine.GetMovieInfoByID.
    destruct (movieProviders e !! name) as [p|]; [|reflexivity].
    apply getMovieInfoByID_error_keeps_store.
  - unfold engine.SearchMovie.
    destruct (String.eqb (Trim keyword) ""); [reflexivity|].
    destruct (movieProviders e !! name) as [p|]; [|reflexivity].
    apply searchMovie_error_keeps_store.
  - destruct (String.eqb_spec (Trim keyword) "") as [Hk|Hk].
    { unfold engine.SearchMovieAll. now rewrite Hk. }
    destruct (gather_ok order (Trim keyword) lazy db) as [results Hg].
    rewrite (SearchMovieAll_run e order keyword lazy db results Hk Hg).
    unfold value at 1, store at 1; cbn [fst snd]. unfold engine.settle.
    destruct results as [|r rest];
      [|destruct (weighted e (Trim keyword) (r :: rest)); discriminate].
    intros _.
    destruct lazy;
      [destruct (List.filter (matches (ByKeyword (Trim keyword))) db)
         as [|row rows] eqn:Hrows|].
    + rewrite gather_miss in Hg |- * by now right.
      unfold value in Hg; cbn [fst] in Hg. injection Hg as Hg.
      unfold store; cbn [fst snd]. now apply tasks_nothing_gathered.
    + rewrite gather_cache by now rewrite Hrows. reflexivity.
    + rewrite gather_miss in Hg |- * by now left.
      unfold value in Hg; cbn [fst] in Hg. injection Hg as Hg.
      unfold store; cbn [fst snd]. now apply tasks_nothing_gathered.
Qed.

(** The errors of [GetMovieInfoByID]: "provider not found" for a name the
    registry does not hold, [ErrInvalidID] for an ID the provider does not
    recognise, and otherwise the error of the provider's own fetch; a cache
    query never produces one. *)
Theorem GetMovieInfoByID_error_kinds (e : Engine) (id name : string) (lazy : bool)
    (db : DB) (err : error) :
  value (GetMovieInfoByID e id name lazy db) = Err err ->
  (movieProviders e !! name = None /\ err = provider_not_found name)
  \/ (exists provider,
        movieProviders e !! name = Some provider
        /\ ((javtube.NormalizeID provider id = "" /\ err = ErrInvalidID)
            \/ (javtube.NormalizeID provider id <> ""
                /\ javtube.GetMovieInfoByID provider (javtube.NormalizeID provider id)
                   = Err err))).
Proof.
  unfold engine.GetMovieInfoByID.
  destruct (movieProviders e !! name) as [p|] eqn:Hp.
  - intros Herr. right. exists p. split; [reflexivity|].
    destruct (String.eqb_spec (javtube.NormalizeID p id) "") as [Hid|Hid].
    + rewrite (getMovieInfoByID_rejected _ _ _ _ Hid) in Herr.
      injection Herr as <-. now left.
    + right. split; [exact Hid|].
      destruct (cache_hit db p (javtube.NormalizeID p id) lazy) as [info|] eqn:Hhit.
      * rewrite (getMovieInfoByID_cached _ _ _ _ _ Hid Hhit) in Herr. discriminate Herr.
      * rewrite (getMovieInfoByID_fetched _ _ _ _ Hid Hhit) in Herr. exact Herr.
  - intros Herr. injection Herr as <-. now left.
Qed.

End Properties.

(** * The properties on the sample engines *)

Section Examples.

Import Sample.

Local Abbreviation SearchMovie := (SearchMovie trim_spaces no_checks).
Local Abbreviation GetMovieInfoByID := (GetMovieInfoByID no_checks).
Local Abbreviation SearchMovieAll :=
  (SearchMovieAll trim_spaces similarity no_checks no_checks).

(** C1: what the code does on a search whose only result is invalid: the
    provider "N" answers the keyword "abc" with one result without a number,
    and [SearchMovieAll] returns the empty list with a nil error, not
    [ErrNotFound]. *)
Theorem invalid_results_yield_empty_success :
  SearchMovieAll (engine [N]) [N] "abc" false []
  = (Returns (Ok []), [], [CallSearchMovie "N" "abc"]).
Proof. vm_compute. reflexivity. Qed.

Lemma invalid_keyword_fails_first_witness :
  trim_spaces "   " = ""
  /\ SearchMovie (engine [A]) "   " "A" true shelf = (Err ErrInvalidKeyword, shelf, [])
  /\ SearchMovieAll (engine [A]) [A] "   " true shelf
     = (Returns (Err ErrInvalidKeyword), shelf, []).
Proof.
  split; [reflexivity|].
  apply (invalid_keyword_fails_first trim_spaces similarity no_checks no_checks).
  reflexivity.
Defined.

Lemma unknown_provider_fails_witness :
  movieProviders (engine [A]) !! "Q" = None
  /\ SearchMovie (engine [A]) "abc" "Q" true shelf
     = (Err (Errorf "provider not found: Q"), shelf, [])
  /\ GetMovieInfoByID (engine [A]) "xyz1" "Q" true shelf
     = (Err (Errorf "provider not found: Q"), shelf, []).
Proof.
  split; [reflexivity|].
  destruct (unknown_provider_fails trim_spaces no_checks (engine [A]) "abc" "xyz1" "Q"
              true shelf eq_refl) as [Hsearch Hget].
  split; [apply Hsearch; discriminate|exact Hget].
Defined.

Lemma lazy_fetch_returns_cached_record_witness :
  GetMovieInfoByID (engine [G]) "xyz1" "G" true [info "G" "xyz1" "XYZ-001"]
  = (Ok (info "G" "xyz1" "XYZ-001"), [info "G" "xyz1" "XYZ-001"],
     [CallNormalizeID "G" "xyz1"; CallName "G"; DBFirst (ByProviderAndID "xyz1" "G")]).
Proof.
  apply (lazy_fetch_returns_cached_record no_checks (engine [G]) "xyz1" "G"
           [info "G" "xyz1" "XYZ-001"] G (info "G" "xyz1" "XYZ-001")).
  - reflexivity.
  - discriminate.
  - reflexivity.
  - reflexivity.
Defined.

Lemma fetch_error_is_returned_unchanged_witness :
  GetMovieInfoByID (engine [E]) "xyz1" "E" true shelf
  = (Err (Errorf "connection reset"), shelf,
     [CallNormalizeID "E" "xyz1"; CallName "E"; DBFirst (ByProviderAndID "xyz1" "E");
      CallGetMovieInfoByID "E" "xyz1"]).
Proof.
  apply (fetch_error_is_returned_unchanged no_checks (engine [E]) "xyz1" "E" true shelf E
           (Errorf "connection reset")).
  - reflexivity.
  - discriminate.
  - reflexivity.
  - reflexivity.
Defined.

Lemma fallback_search_is_cache_first_witness :
  SearchMovie (engine [G]) " xyz1 " "G" false [info "G" "xyz1" "XYZ-001"]
  = (Ok [ToSearchResult (info "G" "xyz1" "XYZ-001")], [info "G" "xyz1" "XYZ-001"],
     [CallNormalizeID "G" "xyz1"; CallName "G"; DBFirst (ByProviderAndID "xyz1" "G")]).
Proof.
  apply (proj2 (fallback_search_is_cache_first trim_spaces no_checks (engine [G])
                  " xyz1 " "G" [info "G" "xyz1" "XYZ-001"] G
                  eq_refl eq_refl ltac:(discriminate))
           (info "G" "xyz1" "XYZ-001")).
  - discriminate.
  - reflexivity.
  - reflexivity.
Defined.

Lemma failed_providers_contribute_nothing_witness :
  trim_spaces "abc-123" <> ""
  /\ value (searchMovie no_checks "abc-123" F false []) = Err (Errorf "connection reset")
  /\ successes no_checks "abc-123" [A; F; B] [] = successes no_checks "abc-123" [A; B] []
  /\ value (SearchMovieAll (engine [A; F; B]) [A; F; B] "abc-123" false [])
     = Returns (Ok [ToSearchResult (info "B" "1" "abc-123");
                    ToSearchResult (info "A" "1" "abc-123")]).
Proof.
  assert (Hk : trim_spaces "abc-123" <> "") by discriminate.
  destruct (failed_providers_contribute_nothing trim_spaces similarity no_checks no_checks
              (engine [A; F; B]) [A; F; B] "abc-123" [] Hk)
    as (_ & _ & Hstrike & Hrun & _ & _ & _).
  split; [exact Hk|]. split; [reflexivity|]. split.
  - apply (Hstrike [A] F [B] (Errorf "connection reset")); reflexivity.
  - rewrite Hrun. vm_compute. reflexivity.
Defined.

Lemma unregistered_provider_panics_witness :
  movieProviders (engine [A]) !! "Z" = None
  /\ value (SearchMovieAll (engine [A]) [A] "abc-123" true [info "Z" "1" "ABC-123"])
     = Panics.
Proof.
  split; [reflexivity|].
  apply (proj2 (unregistered_provider_panics trim_spaces similarity no_checks no_checks
                  (engine [A]) [A] "abc-123" [info "Z" "1" "ABC-123"]
                  ltac:(discriminate))
           (info "Z" "1" "ABC-123")).
  - now left.
  - reflexivity.
  - reflexivity.
  - reflexivity.
Defined.

Lemma shelf_registered :
  registered no_checks (engine [A; B])
    (List.map ToSearchResult
       (List.filter (matches (ByKeyword (trim_spaces "abc-123"))) shelf)).
Proof.
  intros r [<-|[<-|[]]] _; vm_compute; eexists; reflexivity.
Defined.

Lemma cached_rows_are_ranked_witness :
  SearchMovieAll (engine [A; B]) [A; B] "abc-123" true shelf
  = (Returns (Ok [ToSearchResult (info "B" "7" "ABC-123");
                  ToSearchResult (info "A" "1" "ABC-123")]),
     shelf,
     [DBFind (ByKeyword "abc-123"); CallPriority "A"; CallPriority "B"]).
Proof.
  rewrite (proj1 (cached_rows_are_ranked trim_spaces similarity no_checks no_checks
                    (engine [A; B]) [A; B] "abc-123" shelf
                    ltac:(discriminate) ltac:(discriminate) shelf_registered)).
  vm_compute. reflexivity.
Defined.

(** C2, as stated, fails: the rows of "A" and "B" are stored in this order,
    and the [lazy] search returns the row of "B" first. *)
Lemma cached_rows_leave_storage_order :
  List.filter (matches (ByKeyword "abc-123")) shelf = shelf
  /\ value (SearchMovieAll (engine [A; B]) [A; B] "abc-123" true shelf)
     = Returns (Ok [ToSearchResult (info "B" "7" "ABC-123");
                    ToSearchResult (info "A" "1" "ABC-123")])
  /\ value (SearchMovieAll (engine [A; B]) [A; B] "abc-123" true shelf)
     <> Returns (Ok (List.map ToSearchResult shelf)).
Proof.
  split; [reflexivity|]. split; [vm_compute; reflexivity|].
  vm_compute. discriminate.
Qed.

Lemma invalid_info_is_never_saved_witness :
  MovieInfo.Number (info "X" "x1" "") = ""
  /\ store (GetMovieInfoByID (engine [X]) "x1" "X" false []) = []
  /\ ~ In (DBCreate (info "X" "x1" ""))
         (trace (GetMovieInfoByID (engine [X]) "x1" "X" false []))
  /\ value (SearchMovieAll (engine [X]) [X] "x1" false []) = Returns (Ok []).
Proof.
  destruct (invalid_info_is_never_saved trim_spaces similarity no_checks no_checks
              (engine [X]) [X] "x1" "x1" "X" false [] (info "X" "x1" "")
              (or_intror eq_refl))
    as ((Hget & _ & _) & _ & _ & _).
  split; [reflexivity|]. split; [reflexivity|]. split; [exact Hget|].
  vm_compute. reflexivity.
Defined.

(** C3, as stated, fails: the info that "X" fetches has no number, and
    [GetMovieInfoByID] and [SearchMovie] hand it to the caller. *)
Lemma invalid_info_is_returned :
  InfoValid no_checks (info "X" "x1" "") = false
  /\ value (GetMovieInfoByID (engine [X]) "x1" "X" false []) = Ok (info "X" "x1" "")
  /\ value (SearchMovie (engine [X]) "x1" "X" false [])
     = Ok [ToSearchResult (info "X" "x1" "")].
Proof. repeat split. Qed.

(** ** The further properties on the sample engines *)

Lemma unrecognised_id_is_rejected_witness :
  javtube.NormalizeID P "abc1" = ""
  /\ GetMovieInfoByID (engine [P]) "abc1" "P" true shelf
     = (Err ErrInvalidID, shelf, [CallNormalizeID "P" "abc1"])
  /\ SearchMovie (engine [P]) " abc1 " "P" false shelf
     = (Err ErrInvalidID, shelf, [CallNormalizeID "P" "abc1"]).
Proof.
  destruct (unrecognised_id_is_rejected trim_spaces no_checks (engine [P])
              "abc1" " abc1 " "P" true shelf P eq_refl) as [Hget _].
  destruct (unrecognised_id_is_rejected trim_spaces no_checks (engine [P])
              "abc1" " abc1 " "P" false shelf P eq_refl) as [_ Hsearch].
  split; [reflexivity|]. split; [now apply Hget|].
  apply Hsearch; [reflexivity|discriminate|reflexivity].
Defined.

Lemma fetched_info_is_cached_witness :
  GetMovieInfoByID (engine [G]) "xyz1" "G" true []
  = (Ok (info "G" "xyz1" "XYZ-001"), [info "G" "xyz1" "XYZ-001"],
     [CallNormalizeID "G" "xyz1"; CallName "G"; DBFirst (ByProviderAndID "xyz1" "G");
      CallGetMovieInfoByID "G" "xyz1"; DBCreate (info "G" "xyz1" "XYZ-001")])
  /\ GetMovieInfoByID (engine [G]) "xyz1" "G" true [info "G" "xyz1" "XYZ-001"]
     = (Ok (info "G" "xyz1" "XYZ-001"), [info "G" "xyz1" "XYZ-001"],
        [CallNormalizeID "G" "xyz1"; CallName "G"; DBFirst (ByProviderAndID "xyz1" "G")]).
Proof.
  apply (fetched_info_is_cached no_checks (engine [G]) "xyz1" "G" true [] G
           (info "G" "xyz1" "XYZ-001")).
  - reflexivity.
  - discriminate.
  - reflexivity.
  - reflexivity.
  - reflexivity.
  - reflexivity.
  - reflexivity.
Defined.

Lemma eager_fetch_ignores_the_cache_witness :
  value (GetMovieInfoByID (engine [G]) "xyz1" "G" false [info "G" "xyz1" "OLD-001"])
  = Ok (info "G" "xyz1" "XYZ-001")
  /\ record_for (store (GetMovieInfoByID (engine [G]) "xyz1" "G" false
                          [info "G" "xyz1" "OLD-001"])) "G" "xyz1"
     = Some (info "G" "xyz1" "XYZ-001").
Proof.
  destruct (eager_fetch_ignores_the_cache no_checks (engine [G]) "xyz1" "G"
              [info "G" "xyz1" "OLD-001"] G eq_refl ltac:(discriminate))
    as (Hvalue & _ & _ & Hrecord).
  split; [exact Hvalue|].
  apply (Hrecord (info "G" "xyz1" "XYZ-001")); reflexivity.
Defined.

Lemma invalid_cached_record_is_not_served_witness :
  InfoValid no_checks stale = false
  /\ value (GetMovieInfoByID (engine [G]) "xyz1" "G" true [stale])
     = Ok (info "G" "xyz1" "XYZ-001")
  /\ record_for (store (GetMovieInfoByID (engine [G]) "xyz1" "G" true [stale])) "G" "xyz1"
     = Some (info "G" "xyz1" "XYZ-001").
Proof.
  destruct (invalid_cached_record_is_not_served no_checks (engine [G]) "xyz1" "G"
              [stale] G stale eq_refl ltac:(discriminate) eq_refl eq_refl)
    as (Hvalue & _ & Hrecord).
  split; [reflexivity|]. split; [exact Hvalue|].
  apply (Hrecord (info "G" "xyz1" "XYZ-001")); reflexivity.
Defined.


Lemma search_answer_is_passed_through_witness :
  SearchMovie (engine [F]) "abc-123" "F" false shelf
  = (Err (Errorf "connection reset"), shelf, [CallSearchMovie "F" "abc-123"])
  /\ store (SearchMovie (engine [F]) "abc-123" "F" true shelf) = shelf.
Proof.
  destruct (search_answer_is_passed_through trim_spaces no_checks (engine [F])
              "abc-123" "F" true shelf F (fun _ => Err (Errorf "connection reset"))
              eq_refl eq_refl ltac:(discriminate))
    as (Hrun & Hstore & _).
  split; [exact Hrun|exact Hstore].
Defined.

Lemma fallback_search_fills_the_cache_witness :
  value (SearchMovie (engine [G]) " xyz1 " "G" false [])
  = Ok [ToSearchResult (info "G" "xyz1" "XYZ-001")]
  /\ store (SearchMovie (engine [G]) " xyz1 " "G" false []) = [info "G" "xyz1" "XYZ-001"].
Proof.
  destruct (fallback_search_fills_the_cache trim_spaces no_checks (engine [G])
              " xyz1 " "G" false [] G (info "G" "xyz1" "XYZ-001")
              eq_refl eq_refl ltac:(discriminate) ltac:(discriminate)
              eq_refl eq_refl eq_refl eq_refl eq_refl)
    as (Hvalue & Hstore & _).
  split; [exact Hvalue|exact Hstore].
Defined.

Lemma lazy_miss_searches_the_providers_witness :
  SearchMovieAll (engine [A; B]) [A; B] "abc-123" true []
  = (Returns (Ok [ToSearchResult (info "B" "1" "abc-123");
                  ToSearchResult (info "A" "1" "abc-123")]),
     [],
     [DBFind (ByKeyword "abc-123"); CallSearchMovie "A" "abc-123";
      CallSearchMovie "B" "abc-123"; CallPriority "A"; CallPriority "B"]).
Proof.
  rewrite (lazy_miss_searches_the_providers trim_spaces similarity no_checks no_checks
             (engine [A; B]) [A; B] "abc-123" [] ltac:(discriminate) eq_refl).
  vm_compute. reflexivity.
Defined.

Lemma all_providers_failing_is_not_found_witness :
  value (SearchMovieAll (engine [F; E]) [F; E] "abc-123" false shelf)
  = Returns (Err ErrNotFound)
  /\ store (SearchMovieAll (engine [F; E]) [F; E] "abc-123" false shelf) = shelf.
Proof.
  apply (all_providers_failing_is_not_found trim_spaces similarity no_checks no_checks
           (engine [F; E]) [F; E] "abc-123" shelf).
  - discriminate.
  - repeat constructor; eexists; reflexivity.
Defined.

Lemma SearchMovieAll_error_kinds_witness :
  trim_spaces "abc-123" <> "" /\ ErrNotFound = ErrNotFound
  /\ value (gather no_checks [F] (trim_spaces "abc-123") false shelf) = Ok [].
Proof.
  destruct (SearchMovieAll_error_kinds trim_spaces similarity no_checks no_checks
              (engine [F]) [F] "abc-123" false shelf ErrNotFound eq_refl)
    as [[Hk _]|H]; [discriminate Hk|exact H].
Defined.

Lemma ranking_keeps_the_valid_results_witness :
  [ToSearchResult (info "B" "7" "ABC-123"); ToSearchResult (info "A" "1" "ABC-123")]
  ≡ₚ List.filter (ResultValid no_checks)
       (List.map ToSearchResult
          (List.filter (matches (ByKeyword (trim_spaces "abc-123"))) shelf)).
Proof.
  apply (ranking_keeps_the_valid_results trim_spaces similarity no_checks no_checks
           (engine [A; B]) [A; B] "abc-123" true shelf).
  - vm_compute. reflexivity.
  - reflexivity.
  - discriminate.
Defined.

Lemma searching_providers_leave_the_store_witness :
  store (SearchMovieAll (engine [A; F; B]) [A; F; B] "abc-123" false shelf) = shelf
  /\ trace (SearchMovieAll (engine [A; F; B]) [A; F; B] "abc-123" false shelf)
     = [CallSearchMovie "A" "abc-123"; CallSearchMovie "F" "abc-123";
        CallSearchMovie "B" "abc-123"; CallPriority "A"; CallPriority "B"].
Proof.
  destruct (searching_providers_leave_the_store trim_spaces similarity no_checks no_checks
              (engine [A; F; B]) [A; F; B] "abc-123" shelf ltac:(discriminate)
              ltac:(repeat constructor; eexists; reflexivity))
    as [Hstore Htrace].
  split; [exact Hstore|]. rewrite Htrace. vm_compute. reflexivity.
Defined.

Lemma errors_leave_the_store_unchanged_witness :
  value (GetMovieInfoByID (engine [E]) "xyz1" "E" false shelf)
  = Err (Errorf "connection reset")
  /\ store (GetMovieInfoByID (engine [E]) "xyz1" "E" false shelf) = shelf.
Proof.
  split; [reflexivity|].
  apply (proj1 (errors_leave_the_store_unchanged trim_spaces similarity no_checks
                  no_checks (engine [E]) [E] "xyz1" "xyz1" "E" false shelf
                  (Errorf "connection reset"))).
  reflexivity.
Defined.

Lemma GetMovieInfoByID_error_kinds_witness :
  (movieProviders (engine [E]) !! "E" = None
   /\ Errorf "connection reset" = provider_not_found "E")
  \/ (exists provider,
        movieProviders (engine [E]) !! "E" = Some provider
        /\ ((javtube.NormalizeID provider "xyz1" = ""
             /\ Errorf "connection reset" = ErrInvalidID)
            \/ (javtube.NormalizeID provider "xyz1" <> ""
                /\ javtube.GetMovieInfoByID provider (javtube.NormalizeID provider "xyz1")
                   = Err (Errorf "connection reset")))).
Proof.
  apply (GetMovieInfoByID_error_kinds no_checks (engine [E]) "xyz1" "E" true shelf).
  reflexivity.
Defined.

End Examples.
